(** * AI Image Studio: the service client, the file reader and the UI controller

    A shallow embedding of [services/geminiService.ts], [utils/fileUtils.ts]
    and the state handling of [App.tsx].

    - JavaScript strings are [string]; [null]/[undefined] is [None].
    - A promise is modelled by the way it settles ([Settled]); a thrown value
      is a [Thrown].
    - The remote model and the browser's [FileReader] are the outside world:
      the value they answer with is a parameter of the functions below.
    - A React state setter is a function [State -> State]; a handler is the
      composition of its setter calls, split at its [await]. *)

From Stdlib Require Import String Ascii List Bool Arith Lia.
Import ListNotations.
Open Scope string_scope.

(** ** JavaScript values *)

Module Js.

(** What a [throw] or a rejected promise carries.  [e instanceof Error]
    holds of [ErrorObj] only. *)
Inductive Thrown : Type :=
| ErrorObj (message : string)
| NonError.

(** The engine's [TypeError] for reading a property of [undefined] and for
    iterating [undefined].  The wording belongs to the engine. *)
Definition TypeError_reading (prop : string) : Thrown :=
  ErrorObj ("Cannot read properties of undefined (reading '" ++ prop ++ "')").

Definition TypeError_not_iterable : Thrown :=
  ErrorObj "response.candidates[0].content.parts is not iterable".

(** How a promise settles. *)
Inductive Settled (A : Type) : Type :=
| Resolved (a : A)
| Rejected (e : Thrown).
Arguments Resolved {A} a.
Arguments Rejected {A} e.

(** [await p; k]: a rejection skips the rest of the block. *)
Definition bind {A B : Type} (p : Settled A) (k : A -> Settled B) : Settled B :=
  match p with
  | Resolved a => k a
  | Rejected e => Rejected e
  end.

(** [try { body } catch (e) { handler }]. *)
Definition try_catch {A : Type} (body : Settled A) (handler : Thrown -> Settled A)
  : Settled A :=
  match body with
  | Resolved a => Resolved a
  | Rejected e => handler e
  end.

(** Truthiness of a string: every string but the empty one. *)
Definition truthy (s : string) : bool :=
  match s with
  | EmptyString => false
  | String _ _ => true
  end.

(** Truthiness of [string | undefined] and [string | null]. *)
Definition truthy_opt (o : option string) : bool :=
  match o with
  | Some s => truthy s
  | None => false
  end.

(** [s.split(sep)] for a one-character separator. *)
Fixpoint split (sep : ascii) (s : string) : list string :=
  match s with
  | EmptyString => [EmptyString]
  | String c rest =>
      if Ascii.eqb c sep then EmptyString :: split sep rest
      else match split sep rest with
           | [] => [String c EmptyString]
           | seg :: segs => String c seg :: segs
           end
  end.

(** A value of type [string | undefined] inside a template literal. *)
Definition template (v : option string) : string :=
  match v with
  | Some s => s
  | None => "undefined"
  end.

(** [s.startsWith(p)]. *)
Definition startsWith (p s : string) : bool := String.prefix p s.

End Js.

Import Js.

Notation "'await!' x <- p ; k" := (bind p (fun x => k))
  (at level 10, x name, p at level 100, k at level 200).

(** ** types.ts *)

(** The five ratios offered by the selector in [App.tsx]. *)
Inductive AspectRatio : Type :=
| Ratio_1_1 | Ratio_16_9 | Ratio_9_16 | Ratio_4_3 | Ratio_3_4.

Definition AspectRatio_text (r : AspectRatio) : string :=
  match r with
  | Ratio_1_1 => "1:1"
  | Ratio_16_9 => "16:9"
  | Ratio_9_16 => "9:16"
  | Ratio_4_3 => "4:3"
  | Ratio_3_4 => "3:4"
  end.

(** ** services/geminiService.ts *)

Module GeminiService.

(** *** Shapes exchanged with the remote model

    Every field the source reads without a guard may be [undefined] at run
    time; reading through an [undefined] one throws a [TypeError]. *)

Record Image : Type := { imageBytes : option string }.
Record GeneratedImage : Type := { image : option Image }.
Record GenerateImagesResponse : Type :=
  { generatedImages : option (list GeneratedImage) }.

Record GenerateImagesConfig : Type :=
  { numberOfImages : nat;
    outputMimeType : string;
    aspectRatio : AspectRatio }.
Record GenerateImagesParameters : Type :=
  { gi_model : string;
    gi_prompt : string;
    gi_config : GenerateImagesConfig }.

(** [inlineData.data] is read without a guard and handed on as it is, so it
    may be [undefined]. *)
Record Blob : Type := { data : option string; mimeType : string }.
Record Part : Type := { inlineData : option Blob; text : option string }.
Record Content : Type := { parts : option (list Part) }.
Record Candidate : Type := { content : option Content }.
Record GenerateContentResponse : Type :=
  { candidates : option (list Candidate) }.

Inductive Modality : Type := IMAGE | TEXT | AUDIO.
Record GenerateContentParameters : Type :=
  { gc_model : string;
    gc_parts : list Part;
    responseModalities : list Modality }.

(** *** generateImage *)

Definition generation_blocked_message : string :=
  "No image was generated. The response might have been blocked.".
Definition generation_failed_message : string :=
  "Failed to generate image. Please check the prompt or try again later.".

(** The argument of [ai.models.generateImages]. *)
Definition generateImage_request (prompt : string) (ratio : AspectRatio)
  : GenerateImagesParameters :=
  {| gi_model := "imagen-4.0-generate-001";
     gi_prompt := prompt;
     gi_config := {| numberOfImages := 1;
                     outputMimeType := "image/jpeg";
                     aspectRatio := ratio |} |}.

(** The statements of the [try] block that follow the [await]. *)
Definition generateImage_extract (response : GenerateImagesResponse)
  : Settled string :=
  match generatedImages response with
  | Some (first :: _) =>
      match image first with
      | None => Rejected (TypeError_reading "imageBytes")
      | Some img =>
          let base64ImageBytes := imageBytes img in
          match base64ImageBytes with
          | Some bytes =>
              if truthy bytes then Resolved bytes
              else Rejected (ErrorObj generation_blocked_message)
          | None => Rejected (ErrorObj generation_blocked_message)
          end
      end
  | Some [] | None => Rejected (ErrorObj generation_blocked_message)
  end.

(** The function once the remote call has settled with [answer]. *)
Definition generateImage_settle (answer : Settled GenerateImagesResponse)
  : Settled string :=
  try_catch
    (await! response <- answer; generateImage_extract response)
    (fun _ => Rejected (ErrorObj generation_failed_message)).

Definition generateImage (prompt : string) (ratio : AspectRatio)
    (generateImages : GenerateImagesParameters -> Settled GenerateImagesResponse)
  : Settled string :=
  generateImage_settle (generateImages (generateImage_request prompt ratio)).

(** *** editImage *)

Definition edit_blocked_message : string :=
  "No edited image was returned. The response might have been blocked.".
Definition edit_failed_message : string :=
  "Failed to edit image. Please check your instructions or try again later.".

(** The argument of [ai.models.generateContent]. *)
Definition editImage_request
    (prompt : string) (imageDataBase64 : option string) (mime : string)
  : GenerateContentParameters :=
  {| gc_model := "gemini-2.5-flash-image";
     gc_parts :=
       [ {| inlineData := Some {| data := imageDataBase64; mimeType := mime |};
            text := None |};
         {| inlineData := None; text := Some prompt |} ];
     responseModalities := [IMAGE] |}.

(** [for (const part of ps) { if (part.inlineData) return part.inlineData.data; }]
    followed by the [throw] after the loop. *)
Fixpoint editImage_scan (ps : list Part) : Settled (option string) :=
  match ps with
  | [] => Rejected (ErrorObj edit_blocked_message)
  | part :: rest =>
      match inlineData part with
      | Some blob => Resolved (data blob)
      | None => editImage_scan rest
      end
  end.

(** [response.candidates[0].content.parts], each step of which may meet
    [undefined]. *)
Definition editImage_parts (response : GenerateContentResponse)
  : Settled (list Part) :=
  match candidates response with
  | None => Rejected (TypeError_reading "0")
  | Some [] => Rejected (TypeError_reading "content")
  | Some (first :: _) =>
      match content first with
      | None => Rejected (TypeError_reading "parts")
      | Some c =>
          match parts c with
          | None => Rejected TypeError_not_iterable
          | Some ps => Resolved ps
          end
      end
  end.

Definition editImage_settle (answer : Settled GenerateContentResponse)
  : Settled (option string) :=
  try_catch
    (await! response <- answer;
     await! ps <- editImage_parts response;
     editImage_scan ps)
    (fun _ => Rejected (ErrorObj edit_failed_message)).

Definition editImage
    (prompt : string) (imageDataBase64 : option string) (mime : string)
    (generateContent : GenerateContentParameters -> Settled GenerateContentResponse)
  : Settled (option string) :=
  editImage_settle (generateContent (editImage_request prompt imageDataBase64 mime)).

End GeminiService.

(** ** utils/fileUtils.ts *)

Module FileUtils.

(** The part of a browser [File] the program reads. *)
Record File : Type := { name : string; type : string }.

(** What [reader.readAsDataURL(file)] leads to: [onload] with
    [reader.result], or [onerror] with its event. *)
Inductive ReadOutcome : Type :=
| Loaded (result : string)
| Failed.

Record Payload : Type := { base64 : string; mimeType : string }.

Definition decode_failed_message : string :=
  "Failed to read base64 string from file.".

Definition fileToBase64_settle (file : File) (outcome : ReadOutcome)
  : Settled Payload :=
  match outcome with
  | Loaded result =>
      match nth_error (split "," result) 1 with
      | Some b =>
          if truthy b then Resolved {| base64 := b; mimeType := type file |}
          else Rejected (ErrorObj decode_failed_message)
      | None => Rejected (ErrorObj decode_failed_message)
      end
  | Failed => Rejected NonError
  end.

Definition fileToBase64 (file : File) (readAsDataURL : File -> ReadOutcome)
  : Settled Payload :=
  fileToBase64_settle file (readAsDataURL file).

End FileUtils.

(** ** App.tsx *)

Module App.

Import FileUtils.

Inductive Mode : Type := generate | edit.

Definition Mode_eqb (a b : Mode) : bool :=
  match a, b with
  | generate, generate | edit, edit => true
  | _, _ => false
  end.

(** The value held by [originalImageForEdit]; [data] holds whatever the
    handlers store there, which after an Edit is what [editImage] returned. *)
Record ImageForEdit : Type := { data : option string; mimeType : string }.

(** The eight [useState] cells of the component. *)
Record State : Type :=
  { mode : Mode;
    prompt : string;
    editPrompt : string;
    aspectRatio : AspectRatio;
    imageSrc : option string;
    originalImageForEdit : option ImageForEdit;
    isLoading : bool;
    error : option string }.

Definition initial : State :=
  {| mode := generate; prompt := ""; editPrompt := "";
     aspectRatio := Ratio_1_1; imageSrc := None;
     originalImageForEdit := None; isLoading := false; error := None |}.

(** *** The setters *)

Definition setMode (v : Mode) (s : State) : State :=
  {| mode := v; prompt := prompt s; editPrompt := editPrompt s;
     aspectRatio := aspectRatio s; imageSrc := imageSrc s;
     originalImageForEdit := originalImageForEdit s;
     isLoading := isLoading s; error := error s |}.

Definition setPrompt (v : string) (s : State) : State :=
  {| mode := mode s; prompt := v; editPrompt := editPrompt s;
     aspectRatio := aspectRatio s; imageSrc := imageSrc s;
     originalImageForEdit := originalImageForEdit s;
     isLoading := isLoading s; error := error s |}.

Definition setEditPrompt (v : string) (s : State) : State :=
  {| mode := mode s; prompt := prompt s; editPrompt := v;
     aspectRatio := aspectRatio s; imageSrc := imageSrc s;
     originalImageForEdit := originalImageForEdit s;
     isLoading := isLoading s; error := error s |}.

Definition setAspectRatio (v : AspectRatio) (s : State) : State :=
  {| mode := mode s; prompt := prompt s; editPrompt := editPrompt s;
     aspectRatio := v; imageSrc := imageSrc s;
     originalImageForEdit := originalImageForEdit s;
     isLoading := isLoading s; error := error s |}.

Definition setImageSrc (v : option string) (s : State) : State :=
  {| mode := mode s; prompt := prompt s; editPrompt := editPrompt s;
     aspectRatio := aspectRatio s; imageSrc := v;
     originalImageForEdit := originalImageForEdit s;
     isLoading := isLoading s; error := error s |}.

Definition setOriginalImageForEdit (v : option ImageForEdit) (s : State) : State :=
  {| mode := mode s; prompt := prompt s; editPrompt := editPrompt s;
     aspectRatio := aspectRatio s; imageSrc := imageSrc s;
     originalImageForEdit := v;
     isLoading := isLoading s; error := error s |}.

Definition setIsLoading (v : bool) (s : State) : State :=
  {| mode := mode s; prompt := prompt s; editPrompt := editPrompt s;
     aspectRatio := aspectRatio s; imageSrc := imageSrc s;
     originalImageForEdit := originalImageForEdit s;
     isLoading := v; error := error s |}.

Definition setError (v : option string) (s : State) : State :=
  {| mode := mode s; prompt := prompt s; editPrompt := editPrompt s;
     aspectRatio := aspectRatio s; imageSrc := imageSrc s;
     originalImageForEdit := originalImageForEdit s;
     isLoading := isLoading s; error := v |}.

Definition clearError : State -> State := setError None.

(** *** Handlers

    A handler runs up to its [await] and leaves the call it waits for; the
    rest of the handler runs, on the state of that later moment, when the
    call has settled.  The statements after an [await] only call setters, so
    they are a function of the settled value and of the state they meet. *)

Inductive Pending : Type :=
| CallGenerateImage (prompt : string) (ratio : AspectRatio)
| CallEditImage (prompt : string) (imageDataBase64 : option string) (mime : string)
| CallFileToBase64 (file : File).

(** [e instanceof Error ? e.message : fallback]. *)
Definition message_or (fallback : string) (e : Thrown) : string :=
  match e with
  | ErrorObj message => message
  | NonError => fallback
  end.

Definition handleGenerate_begin (s : State) : State * option Pending :=
  if negb (truthy (prompt s))
  then (setError (Some "Please enter a prompt to generate an image.") s, None)
  else
    let s1 := clearError s in
    let s2 := setIsLoading true s1 in
    let s3 := setImageSrc None s2 in
    let s4 := setOriginalImageForEdit None s3 in
    (s4, Some (CallGenerateImage (prompt s) (aspectRatio s))).

Definition handleGenerate_resume (settled : Settled string) (s : State) : State :=
  let s1 :=
    match settled with
    | Resolved base64Image =>
        let imageUrl := "data:image/jpeg;base64," ++ base64Image in
        let s' := setImageSrc (Some imageUrl) s in
        setOriginalImageForEdit
          (Some {| data := Some base64Image; mimeType := "image/jpeg" |}) s'
    | Rejected e =>
        setError
          (Some (message_or "An unknown error occurred during image generation." e)) s
    end in
  setIsLoading false s1.

Definition handleEdit_begin (s : State) : State * option Pending :=
  if negb (truthy (editPrompt s))
  then (setError (Some "Please enter an editing instruction.") s, None)
  else
    match originalImageForEdit s with
    | None => (setError (Some "No image loaded for editing.") s, None)
    | Some original =>
        let s1 := clearError s in
        let s2 := setIsLoading true s1 in
        (s2, Some (CallEditImage (editPrompt s) (data original) (mimeType original)))
    end.

Definition handleEdit_resume (settled : Settled (option string)) (s : State)
  : State :=
  let s1 :=
    match settled with
    | Resolved base64Image =>
        let imageUrl := "data:image/png;base64," ++ template base64Image in
        let s' := setImageSrc (Some imageUrl) s in
        setOriginalImageForEdit
          (Some {| data := base64Image; mimeType := "image/png" |}) s'
    | Rejected e =>
        setError
          (Some (message_or "An unknown error occurred during image editing." e)) s
    end in
  setIsLoading false s1.

(** The argument is [event.target.files?.[0]]. *)
Definition handleFileChange_begin (file : option File) (s : State)
  : State * option Pending :=
  match file with
  | None => (s, None)
  | Some f =>
      if negb (startsWith "image/" (type f))
      then (setError (Some "Please select an image file.") s, None)
      else
        let s1 := clearError s in
        let s2 := setIsLoading true s1 in
        (s2, Some (CallFileToBase64 f))
  end.

Definition handleFileChange_resume (settled : Settled Payload) (s : State) : State :=
  let s1 :=
    match settled with
    | Resolved payload =>
        let imageUrl :=
          "data:" ++ FileUtils.mimeType payload ++ ";base64," ++ base64 payload in
        let s' := setImageSrc (Some imageUrl) s in
        let s'' :=
          setOriginalImageForEdit
            (Some {| data := Some (base64 payload);
                     mimeType := FileUtils.mimeType payload |}) s' in
        setMode edit s''
    | Rejected _ => setError (Some "Failed to load image.") s
    end in
  setIsLoading false s1.

Definition switchToEditMode (s : State) : State :=
  if truthy_opt (imageSrc s) then setMode edit s else s.

Definition handleModeChange (newMode : Mode) (s : State) : State :=
  clearError (setMode newMode s).

(** *** One action run to its end

    The outside world as three oracles: what the two remote calls and the
    file reader answer. *)

Record World : Type :=
  { generateImages :
      GeminiService.GenerateImagesParameters ->
      Settled GeminiService.GenerateImagesResponse;
    generateContent :
      GeminiService.GenerateContentParameters ->
      Settled GeminiService.GenerateContentResponse;
    readAsDataURL : File -> ReadOutcome }.

(** The awaited call is made against [w] and the handler goes on. *)
Definition settle_in (w : World) (p : Pending) (s : State) : State :=
  match p with
  | CallGenerateImage pr ratio =>
      handleGenerate_resume
        (GeminiService.generateImage pr ratio (generateImages w)) s
  | CallEditImage pr bytes mime =>
      handleEdit_resume
        (GeminiService.editImage pr bytes mime (generateContent w)) s
  | CallFileToBase64 f =>
      handleFileChange_resume (fileToBase64 f (readAsDataURL w)) s
  end.

Definition finish (w : World) (r : State * option Pending) : State :=
  match r with
  | (s, Some p) => settle_in w p s
  | (s, None) => s
  end.

Definition handleGenerate (w : World) (s : State) : State :=
  finish w (handleGenerate_begin s).

Definition handleEdit (w : World) (s : State) : State :=
  finish w (handleEdit_begin s).

Definition handleFileChange (w : World) (file : option File) (s : State) : State :=
  finish w (handleFileChange_begin file s).

(** *** The rendered controls and interleaved actions

    What the user can do is what the returned JSX renders and leaves
    enabled; a call that is under way settles at any later moment. *)

Inductive Answer : Type :=
| ImagesAnswer (a : Settled GeminiService.GenerateImagesResponse)
| ContentAnswer (a : Settled GeminiService.GenerateContentResponse)
| ReadAnswer (a : ReadOutcome).

Definition resume (p : Pending) (a : Answer) (s : State) : option State :=
  match p, a with
  | CallGenerateImage pr ratio, ImagesAnswer r =>
      Some (handleGenerate_resume
              (GeminiService.generateImage pr ratio (fun _ => r)) s)
  | CallEditImage pr bytes mime, ContentAnswer r =>
      Some (handleEdit_resume
              (GeminiService.editImage pr bytes mime (fun _ => r)) s)
  | CallFileToBase64 f, ReadAnswer r =>
      Some (handleFileChange_resume (fileToBase64 f (fun _ => r)) s)
  | _, _ => None
  end.

Inductive Event : Type :=
| ClickTab (newMode : Mode)
| DismissError
| TypePrompt (v : string)
| SelectAspectRatio (v : AspectRatio)
| ClickGenerate
| ChooseFile (file : option File)
| TypeEditPrompt (v : string)
| ClickApplyEdit
| ClickEditThisImage
| Settle (i : nat) (a : Answer).

Definition isSome {A : Type} (o : option A) : bool :=
  match o with Some _ => true | None => false end.

(** Is the control of [e] rendered, and not [disabled], in [s]? *)
Definition enabled (s : State) (e : Event) : bool :=
  match e with
  | ClickTab _ => true
  | DismissError => truthy_opt (error s)
  | TypePrompt _ | SelectAspectRatio _ => Mode_eqb (mode s) generate
  | ClickGenerate => Mode_eqb (mode s) generate && negb (isLoading s)
  | ChooseFile _ => Mode_eqb (mode s) edit
  | TypeEditPrompt _ =>
      Mode_eqb (mode s) edit && isSome (originalImageForEdit s)
  | ClickApplyEdit =>
      Mode_eqb (mode s) edit && isSome (originalImageForEdit s)
      && negb (isLoading s || negb (isSome (originalImageForEdit s)))
  | ClickEditThisImage => truthy_opt (imageSrc s) && negb (isLoading s)
  | Settle _ _ => true
  end.

(** The component together with the calls that have not settled yet. *)
Record System : Type := { ui : State; inFlight : list Pending }.

Definition start : System := {| ui := initial; inFlight := [] |}.

Definition issue (sys : System) (r : State * option Pending) : System :=
  match r with
  | (s, Some p) => {| ui := s; inFlight := inFlight sys ++ [p] |}
  | (s, None) => {| ui := s; inFlight := inFlight sys |}
  end.

Fixpoint remove_nth {A : Type} (i : nat) (l : list A) : list A :=
  match l, i with
  | [], _ => []
  | _ :: t, 0 => t
  | h :: t, S j => h :: remove_nth j t
  end.

Definition react (e : Event) (sys : System) : option System :=
  let s := ui sys in
  let pure (s' : State) := Some {| ui := s'; inFlight := inFlight sys |} in
  match e with
  | ClickTab m => pure (handleModeChange m s)
  | DismissError => pure (clearError s)
  | TypePrompt v => pure (setPrompt v s)
  | SelectAspectRatio v => pure (setAspectRatio v s)
  | ClickGenerate => Some (issue sys (handleGenerate_begin s))
  | ChooseFile f => Some (issue sys (handleFileChange_begin f s))
  | TypeEditPrompt v => pure (setEditPrompt v s)
  | ClickApplyEdit => Some (issue sys (handleEdit_begin s))
  | ClickEditThisImage => pure (switchToEditMode s)
  | Settle i a =>
      match nth_error (inFlight sys) i with
      | Some p =>
          match resume p a s with
          | Some s' => Some {| ui := s'; inFlight := remove_nth i (inFlight sys) |}
          | None => None
          end
      | None => None
      end
  end.

Definition step (e : Event) (sys : System) : option System :=
  if enabled (ui sys) e then react e sys else None.

Fixpoint run (es : list Event) (sys : System) : option System :=
  match es with
  | [] => Some sys
  | e :: rest =>
      match step e sys with
      | Some sys' => run rest sys'
      | None => None
      end
  end.

(** An action that starts an operation: Generate, Edit or Upload. *)
Definition isOperation (e : Event) : bool :=
  match e with
  | ClickGenerate | ClickApplyEdit | ChooseFile _ => true
  | _ => false
  end.

End App.

(** ** Reference definitions, written from the specification's wording *)

Module Wording.

(** The substring after the first occurrence of [sep]; absent when [s] has
    no [sep]. *)
Fixpoint after_first (sep : ascii) (s : string) : option string :=
  match s with
  | EmptyString => None
  | String c rest => if Ascii.eqb c sep then Some rest else after_first sep rest
  end.

(** The part of [s] in front of its first [sep]; all of [s] when it has none. *)
Fixpoint until (sep : ascii) (s : string) : string :=
  match s with
  | EmptyString => EmptyString
  | String c rest => if Ascii.eqb c sep then EmptyString else String c (until sep rest)
  end.

Fixpoint occurs (sep : ascii) (s : string) : bool :=
  match s with
  | EmptyString => false
  | String c rest => Ascii.eqb c sep || occurs sep rest
  end.

(** [fileToBase64] as the specification words it: the payload is everything after
    the first comma of the read result. *)
Definition fileToBase64_after_first_comma
    (file : FileUtils.File) (outcome : FileUtils.ReadOutcome)
  : Settled FileUtils.Payload :=
  match outcome with
  | FileUtils.Loaded result =>
      match after_first "," result with
      | Some tail =>
          if truthy tail
          then Resolved {| FileUtils.base64 := tail;
                           FileUtils.mimeType := FileUtils.type file |}
          else Rejected (ErrorObj FileUtils.decode_failed_message)
      | None => Rejected (ErrorObj FileUtils.decode_failed_message)
      end
  | FileUtils.Failed => Rejected NonError
  end.

(** The inline payloads of a list of parts, in order. *)
Definition inline_payloads (ps : list GeminiService.Part) : list (option string) :=
  flat_map
    (fun p =>
       match GeminiService.inlineData p with
       | Some blob => [GeminiService.data blob]
       | None => []
       end) ps.

(** The content parts of a response: those of its first candidate. *)
Definition content_parts (response : GeminiService.GenerateContentResponse)
  : list GeminiService.Part :=
  match GeminiService.candidates response with
  | Some (first :: _) =>
      match GeminiService.content first with
      | Some c =>
          match GeminiService.parts c with
          | Some ps => ps
          | None => []
          end
      | None => []
      end
  | _ => []
  end.

(** The encoded bytes of a generated image, when it has any. *)
Definition bytes_of (g : GeminiService.GeneratedImage) : option string :=
  match GeminiService.image g with
  | Some img => GeminiService.imageBytes img
  | None => None
  end.

(** The three operations of the controller. *)
Inductive Operation : Type :=
| Generate
| Edit
| Upload (file : FileUtils.File).

Definition begin (op : Operation) (s : App.State) : App.State * option App.Pending :=
  match op with
  | Generate => App.handleGenerate_begin s
  | Edit => App.handleEdit_begin s
  | Upload f => App.handleFileChange_begin (Some f) s
  end.

Definition perform (w : App.World) (op : Operation) (s : App.State) : App.State :=
  App.finish w (begin op s).

(** The message a failed operation shows. *)
Definition failure_message (op : Operation) : string :=
  match op with
  | Generate => GeminiService.generation_failed_message
  | Edit => GeminiService.edit_failed_message
  | Upload _ => "Failed to load image."
  end.

(** The data URL under which an image is displayed. *)
Definition data_url (img : App.ImageForEdit) : string :=
  "data:" ++ App.mimeType img ++ ";base64," ++ template (App.data img).

(** The image a call hands over when it resolves: the returned bytes under
    the format of the operation, JPEG for a generation, PNG for an edit, the
    payload's own type for a file. *)
Definition awaited (w : App.World) (p : App.Pending) : Settled App.ImageForEdit :=
  match p with
  | App.CallGenerateImage pr ratio =>
      match GeminiService.generateImage pr ratio (App.generateImages w) with
      | Resolved bytes =>
          Resolved {| App.data := Some bytes; App.mimeType := "image/jpeg" |}
      | Rejected e => Rejected e
      end
  | App.CallEditImage pr bytes mime =>
      match GeminiService.editImage pr bytes mime (App.generateContent w) with
      | Resolved returned =>
          Resolved {| App.data := returned; App.mimeType := "image/png" |}
      | Rejected e => Rejected e
      end
  | App.CallFileToBase64 f =>
      match FileUtils.fileToBase64 f (App.readAsDataURL w) with
      | Resolved payload =>
          Resolved {| App.data := Some (FileUtils.base64 payload);
                      App.mimeType := FileUtils.mimeType payload |}
      | Rejected e => Rejected e
      end
  end.

(** What the outside world [w] answers to the call [p]. *)
Definition answer (w : App.World) (p : App.Pending) : App.Answer :=
  match p with
  | App.CallGenerateImage pr ratio =>
      App.ImagesAnswer
        (App.generateImages w (GeminiService.generateImage_request pr ratio))
  | App.CallEditImage pr bytes mime =>
      App.ContentAnswer
        (App.generateContent w (GeminiService.editImage_request pr bytes mime))
  | App.CallFileToBase64 f => App.ReadAnswer (App.readAsDataURL w f)
  end.

(** The events that neither start an operation nor settle a call. *)
Definition quiet (e : App.Event) : bool :=
  match e with
  | App.ClickGenerate | App.ClickApplyEdit | App.ChooseFile (Some _)
  | App.Settle _ _ => false
  | _ => true
  end.

(** Two states show the same image, edit source, error and loading flag. *)
Definition same_outcome (a b : App.State) : Prop :=
  App.imageSrc a = App.imageSrc b
  /\ App.originalImageForEdit a = App.originalImageForEdit b
  /\ App.error a = App.error b
  /\ App.isLoading a = App.isLoading b.

(** At most one call under way, and [isLoading] tells whether there is one. *)
Definition one_at_a_time (sys : App.System) : Prop :=
  (App.isLoading (App.ui sys) = true /\ length (App.inFlight sys) = 1)
  \/ (App.isLoading (App.ui sys) = false /\ App.inFlight sys = []).

(** Along [es], is a file chosen only while nothing is loading? *)
Fixpoint uploads_when_idle (es : list App.Event) (sys : App.System) : bool :=
  match es with
  | [] => true
  | e :: rest =>
      match e with
      | App.ChooseFile (Some _) => negb (App.isLoading (App.ui sys))
      | _ => true
      end
      && match App.step e sys with
         | Some sys' => uploads_when_idle rest sys'
         | None => true
         end
  end.

(** The displayed image is the data URL of the edit source, or there is
    neither. *)
Definition image_in_sync (s : App.State) : Prop :=
  match App.originalImageForEdit s with
  | Some img => App.imageSrc s = Some (data_url img)
  | None => App.imageSrc s = None
  end.

(** The messages that can stand in the error slot. *)
Definition shown_messages : list string :=
  [ "Please enter a prompt to generate an image.";
    "Please enter an editing instruction.";
    "No image loaded for editing.";
    "Please select an image file.";
    "Failed to load image.";
    GeminiService.generation_failed_message;
    GeminiService.edit_failed_message ].

(** The messages the source holds without ever showing them. *)
Definition unseen_messages : list string :=
  [ "An unknown error occurred during image generation.";
    "An unknown error occurred during image editing.";
    GeminiService.generation_blocked_message;
    GeminiService.edit_blocked_message;
    FileUtils.decode_failed_message ].

Definition error_is_shown_message (s : App.State) : Prop :=
  match App.error s with
  | Some message => In message shown_messages
  | None => True
  end.

(** The edit source is of an image type. *)
Definition source_is_image (s : App.State) : Prop :=
  match App.originalImageForEdit s with
  | Some img => startsWith "image/" (App.mimeType img) = true
  | None => True
  end.

(** A call under way carries an image type where it carries a type. *)
Definition call_is_image (p : App.Pending) : Prop :=
  match p with
  | App.CallGenerateImage _ _ => True
  | App.CallEditImage _ _ mime => startsWith "image/" mime = true
  | App.CallFileToBase64 f => startsWith "image/" (FileUtils.type f) = true
  end.

(** What a reader that follows the data URL scheme hands over for a file of
    media type [mime] whose bytes encode to [payload]. *)
Definition data_url_of (mime payload : string) : string :=
  "data:" ++ mime ++ ";base64," ++ payload.

(** The parts of one candidate. *)
Definition candidate_parts (c : GeminiService.Candidate) : list GeminiService.Part :=
  match GeminiService.content c with
  | Some ct =>
      match GeminiService.parts ct with
      | Some ps => ps
      | None => []
      end
  | None => []
  end.

End Wording.

(** ** Properties of the service client *)

Module GeminiServiceFacts.

Import GeminiService Wording.

Lemma editImage_scan_first (ps : list Part) :
  editImage_scan ps =
  match hd_error (inline_payloads ps) with
  | Some bytes => Resolved bytes
  | None => Rejected (ErrorObj edit_blocked_message)
  end.
Proof.
  induction ps as [| p ps IH]; simpl.
  - reflexivity.
  - unfold inline_payloads in *. simpl.
    destruct (inlineData p) as [blob |]; simpl.
    + reflexivity.
    + exact IH.
Qed.

Lemma editImage_parts_resolved (response : GenerateContentResponse) (ps : list Part) :
  editImage_parts response = Resolved ps -> content_parts response = ps.
Proof.
  unfold editImage_parts, content_parts.
  destruct (candidates response) as [[| c cs] |]; try discriminate.
  destruct (content c) as [ct |]; try discriminate.
  destruct (parts ct) as [qs |]; try discriminate.
  intros H. injection H as ->. reflexivity.
Qed.

Lemma editImage_parts_rejected (response : GenerateContentResponse) (e : Thrown) :
  editImage_parts response = Rejected e -> content_parts response = [].
Proof.
  unfold editImage_parts, content_parts.
  destruct (candidates response) as [[| c cs] |]; try reflexivity.
  destruct (content c) as [ct |]; try reflexivity.
  destruct (parts ct) as [qs |]; [discriminate | reflexivity].
Qed.

(** Whatever goes wrong, the caller sees one message. *)
Lemma editImage_rejects_generic (answer : Settled GenerateContentResponse) (e : Thrown) :
  editImage_settle answer = Rejected e -> e = ErrorObj edit_failed_message.
Proof.
  unfold editImage_settle, try_catch.
  destruct (await! response <- answer;
            await! ps <- editImage_parts response; editImage_scan ps);
    intros H; [discriminate | injection H as <-; reflexivity].
Qed.

Lemma generateImage_rejects_generic (answer : Settled GenerateImagesResponse) (e : Thrown) :
  generateImage_settle answer = Rejected e -> e = ErrorObj generation_failed_message.
Proof.
  unfold generateImage_settle, try_catch.
  destruct (await! response <- answer; generateImage_extract response);
    intros H; [discriminate | injection H as <-; reflexivity].
Qed.

(** A resolved [generateImage] hands over the non-empty bytes of the first
    generated image. *)
Lemma generateImage_resolved (answer : Settled GenerateImagesResponse) (bytes : string) :
  generateImage_settle answer = Resolved bytes <->
  exists first rest,
    answer = Resolved {| generatedImages := Some (first :: rest) |}
    /\ bytes_of first = Some bytes /\ truthy bytes = true.
Proof.
  unfold generateImage_settle, try_catch, bind, generateImage_extract, bytes_of.
  split.
  - destruct answer as [[[[| g gs] |]] | e]; simpl; try discriminate.
    destruct (image g) as [[[b |]] |] eqn:Hg; simpl; try discriminate.
    destruct (truthy b) eqn:Hb; try discriminate.
    intros H. injection H as ->. exists g, gs. rewrite Hg. auto.
  - intros (g & gs & -> & Hg & Hb). simpl.
    destruct (image g) as [[ob] |]; simpl in *; try discriminate.
    subst ob. rewrite Hb. reflexivity.
Qed.

(** For every answer of the remote call, [editImage] resolves with the
    [data] field, be it there or not, of the first content part that has
    [inlineData]; when no part has any, and when the call itself fails, it
    rejects with one and the same generic error. *)
Theorem editImage_first_inline_or_generic_failure
    (prompt : string) (imageDataBase64 : option string) (mime : string)
    (generateContent : GenerateContentParameters -> Settled GenerateContentResponse) :
  editImage prompt imageDataBase64 mime generateContent =
  match generateContent (editImage_request prompt imageDataBase64 mime) with
  | Resolved response =>
      match hd_error (inline_payloads (content_parts response)) with
      | Some returned => Resolved returned
      | None => Rejected (ErrorObj edit_failed_message)
      end
  | Rejected _ => Rejected (ErrorObj edit_failed_message)
  end.
Proof.
  unfold editImage, editImage_settle, try_catch, bind.
  destruct (generateContent _) as [response | e]; [| reflexivity].
  destruct (editImage_parts response) as [ps | e] eqn:Hparts.
  - rewrite (editImage_parts_resolved _ _ Hparts), editImage_scan_first.
    destruct (hd_error (inline_payloads ps)); reflexivity.
  - rewrite (editImage_parts_rejected _ _ Hparts). reflexivity.
Qed.

(** C7 does not hold of a part whose [inlineData] has no [data]: the scan
    stops at that part and the promise resolves with [undefined], which is
    neither the bytes of the later part that has some nor a failure. *)
Theorem editImage_resolves_undefined_without_bytes :
  let hollow :=
    {| inlineData := Some {| data := None; mimeType := "image/png" |};
       text := None |} in
  let picture :=
    {| inlineData := Some {| data := Some "REVG"; mimeType := "image/png" |};
       text := None |} in
  let response :=
    {| candidates :=
         Some [ {| content := Some {| parts := Some [hollow; picture] |} |} ] |} in
  inline_payloads (content_parts response) = [None; Some "REVG"]
  /\ editImage "add a hat" (Some "QUJD") "image/jpeg" (fun _ => Resolved response)
     = Resolved None.
Proof.
  split; reflexivity.
Qed.

(** C10: when the list of generated images is not empty and the first
    image has no bytes, or empty ones, [generateImage] fails with the
    generic error whatever the later images carry. *)
Theorem generateImage_looks_at_first_only
    (prompt : string) (ratio : AspectRatio)
    (generateImages : GenerateImagesParameters -> Settled GenerateImagesResponse)
    (first : GeneratedImage) (later : list GeneratedImage) :
  generateImages (generateImage_request prompt ratio)
    = Resolved {| generatedImages := Some (first :: later) |} ->
  truthy_opt (bytes_of first) = false ->
  generateImage prompt ratio generateImages
    = Rejected (ErrorObj generation_failed_message).
Proof.
  intros Hanswer Hfirst.
  unfold generateImage. rewrite Hanswer.
  unfold generateImage_settle, try_catch, bind, generateImage_extract. simpl.
  unfold bytes_of in Hfirst.
  destruct (image first) as [[[b |]] |]; simpl in *; try reflexivity.
  rewrite Hfirst. reflexivity.
Qed.

Lemma generateImage_looks_at_first_only_witness :
  let later := [ {| image := Some {| imageBytes := Some "QUJD" |} |} ] in
  let first := {| image := Some {| imageBytes := Some "" |} |} in
  hd_error (map bytes_of later) = Some (Some "QUJD")
  /\ generateImage "a red circle" Ratio_1_1
       (fun _ => Resolved {| generatedImages := Some (first :: later) |})
     = Rejected (ErrorObj generation_failed_message).
Proof.
  split; [reflexivity |].
  apply (generateImage_looks_at_first_only "a red circle" Ratio_1_1 _
           {| image := Some {| imageBytes := Some "" |} |}
           [ {| image := Some {| imageBytes := Some "QUJD" |} |} ]);
    reflexivity.
Defined.

End GeminiServiceFacts.

(** ** Properties of the file reader *)

Module FileUtilsFacts.

Import FileUtils Wording.

Lemma split_head (sep : ascii) (s : string) :
  hd_error (split sep s) = Some (until sep s).
Proof.
  induction s as [| c rest IH]; simpl.
  - reflexivity.
  - destruct (Ascii.eqb c sep); simpl.
    + reflexivity.
    + destruct (split sep rest) as [| seg segs]; simpl in *.
      * discriminate.
      * injection IH as ->. reflexivity.
Qed.

(** [s.split(sep)[1]] is what stands between the first separator and the
    next one. *)
Lemma split_second (sep : ascii) (s : string) :
  nth_error (split sep s) 1 = option_map (until sep) (after_first sep s).
Proof.
  induction s as [| c rest IH]; simpl.
  - reflexivity.
  - destruct (Ascii.eqb c sep); simpl.
    + pose proof (split_head sep rest) as Hhd.
      destruct (split sep rest); simpl in *; [discriminate | exact Hhd].
    + pose proof (split_head sep rest) as Hhd.
      destruct (split sep rest) as [| seg segs]; simpl in *; [discriminate |].
      exact IH.
Qed.

Lemma until_without_sep (sep : ascii) (s : string) :
  occurs sep s = false -> until sep s = s.
Proof.
  induction s as [| c rest IH]; simpl; intros H.
  - reflexivity.
  - apply orb_false_iff in H as [Hc Hrest].
    rewrite Hc, (IH Hrest). reflexivity.
Qed.

(** What the code computes on every read result: the MIME type is the
    file's own [type]; the payload is the part of the read result between
    its first comma and the next one (or the end); the promise rejects
    exactly when the result has no comma, when that part is empty, or when
    the read fails. *)
Theorem fileToBase64_between_commas (file : File) (readAsDataURL : File -> ReadOutcome) :
  fileToBase64 file readAsDataURL =
  match readAsDataURL file with
  | Loaded result =>
      match after_first "," result with
      | Some tail =>
          if truthy (until "," tail)
          then Resolved {| base64 := until "," tail; mimeType := type file |}
          else Rejected (ErrorObj decode_failed_message)
      | None => Rejected (ErrorObj decode_failed_message)
      end
  | Failed => Rejected NonError
  end.
Proof.
  unfold fileToBase64, fileToBase64_settle.
  destruct (readAsDataURL file) as [result |]; [| reflexivity].
  rewrite split_second.
  destruct (after_first "," result) as [tail |]; reflexivity.
Qed.

(** On a read result with a single comma the payload is all that follows
    it, the base64 part of the URL. *)
Lemma fileToBase64_single_comma (file : File) (result tail : string) :
  after_first "," result = Some tail ->
  occurs "," tail = false ->
  fileToBase64 file (fun _ => Loaded result)
  = fileToBase64_after_first_comma file (Loaded result).
Proof.
  intros Htail Hnone.
  unfold fileToBase64, fileToBase64_settle, fileToBase64_after_first_comma.
  rewrite split_second, Htail. simpl.
  rewrite (until_without_sep _ _ Hnone). reflexivity.
Qed.

(** C9 does not hold of a read result with a second comma: the payload
    stops at that comma, so that it is not what follows the first comma,
    and not the base64 part of the URL. *)
Lemma fileToBase64_stops_at_second_comma :
  let file := {| name := "picture"; type := "image/x,y" |} in
  let result := "data:image/x,y;base64,QUJD" in
  after_first "," result = Some "y;base64,QUJD"
  /\ fileToBase64 file (fun _ => Loaded result)
     = Resolved {| base64 := "y;base64"; mimeType := "image/x,y" |}
  /\ fileToBase64 file (fun _ => Loaded result)
     <> fileToBase64_after_first_comma file (Loaded result).
Proof.
  repeat split; try reflexivity.
  vm_compute. discriminate.
Qed.

(** Likewise for rejection: a non-empty rest after the first comma does not
    keep the promise from rejecting. *)
Lemma fileToBase64_rejects_on_empty_segment :
  let file := {| name := "picture"; type := "image/png" |} in
  after_first "," "a,,b" = Some ",b"
  /\ fileToBase64 file (fun _ => Loaded "a,,b")
     = Rejected (ErrorObj decode_failed_message).
Proof.
  split; reflexivity.
Qed.

End FileUtilsFacts.

(** ** Properties of the controller: single actions *)

Module AppFacts.

Import FileUtils App Wording.

Lemma truthy_empty (v : string) : truthy v = false <-> v = "".
Proof.
  destruct v; simpl; split; intros H; try reflexivity; discriminate.
Qed.

Lemma truthy_nonempty (v : string) : truthy v = true <-> v <> "".
Proof.
  destruct v; simpl; split; intros H; try reflexivity;
    try discriminate; contradiction.
Qed.

(** What a handler leaves to be awaited, when its checks pass. *)

Lemma handleGenerate_begin_issues (s : State) :
  prompt s <> "" ->
  handleGenerate_begin s =
  (setOriginalImageForEdit None
     (setImageSrc None (setIsLoading true (clearError s))),
   Some (CallGenerateImage (prompt s) (aspectRatio s))).
Proof.
  intros H. apply truthy_nonempty in H.
  unfold handleGenerate_begin. rewrite H. reflexivity.
Qed.

Lemma handleEdit_begin_issues (s : State) (original : ImageForEdit) :
  editPrompt s <> "" ->
  originalImageForEdit s = Some original ->
  handleEdit_begin s =
  (setIsLoading true (clearError s),
   Some (CallEditImage (editPrompt s) (data original) (mimeType original))).
Proof.
  intros H Himg. apply truthy_nonempty in H.
  unfold handleEdit_begin. rewrite H, Himg. reflexivity.
Qed.

Lemma handleFileChange_begin_issues (s : State) (f : File) :
  startsWith "image/" (type f) = true ->
  handleFileChange_begin (Some f) s =
  (setIsLoading true (clearError s), Some (CallFileToBase64 f)).
Proof.
  intros H. unfold handleFileChange_begin. rewrite H. reflexivity.
Qed.

(** A call is left to be awaited only when the checks of the handler pass. *)
Lemma begin_issued (op : Operation) (s : State) (p : Pending) :
  snd (begin op s) = Some p ->
  match op with
  | Generate =>
      prompt s <> "" /\ p = CallGenerateImage (prompt s) (aspectRatio s)
  | Edit =>
      editPrompt s <> "" /\
      exists original,
        originalImageForEdit s = Some original /\
        p = CallEditImage (editPrompt s) (data original) (mimeType original)
  | Upload f =>
      startsWith "image/" (type f) = true /\ p = CallFileToBase64 f
  end.
Proof.
  destruct op as [| | f]; simpl.
  - unfold handleGenerate_begin.
    destruct (truthy (prompt s)) eqn:H; simpl; [| discriminate].
    intros E. injection E as <-. split; [now apply truthy_nonempty | reflexivity].
  - unfold handleEdit_begin.
    destruct (truthy (editPrompt s)) eqn:H; simpl; [| discriminate].
    destruct (originalImageForEdit s) as [original |]; simpl; [| discriminate].
    intros E. injection E as <-.
    split; [now apply truthy_nonempty | exists original; split; reflexivity].
  - destruct (startsWith "image/" (type f)) eqn:H; simpl; [| discriminate].
    intros E. injection E as <-. split; reflexivity.
Qed.

(** C5: with an empty prompt, Generate sets an error and awaits nothing;
    mode, images, prompts and the loading flag stay as they were, whatever
    the outside world would have answered. *)
Theorem generate_empty_prompt (w : World) (s : State) :
  prompt s = "" ->
  let s' := fst (handleGenerate_begin s) in
  snd (handleGenerate_begin s) = None
  /\ handleGenerate w s = s'
  /\ error s' = Some "Please enter a prompt to generate an image."
  /\ mode s' = mode s
  /\ imageSrc s' = imageSrc s
  /\ originalImageForEdit s' = originalImageForEdit s
  /\ prompt s' = prompt s
  /\ editPrompt s' = editPrompt s
  /\ isLoading s' = isLoading s.
Proof.
  intros H. apply truthy_empty in H.
  unfold handleGenerate, handleGenerate_begin.
  rewrite H. simpl. repeat split; reflexivity.
Qed.

Lemma generate_empty_prompt_witness :
  prompt initial = ""
  /\ snd (handleGenerate_begin initial) = None
  /\ error (fst (handleGenerate_begin initial))
     = Some "Please enter a prompt to generate an image.".
Proof.
  split; [reflexivity |].
  pose proof (generate_empty_prompt
                {| generateImages := fun _ => Rejected NonError;
                   generateContent := fun _ => Rejected NonError;
                   readAsDataURL := fun _ => Failed |}
                initial eq_refl) as H.
  split; [apply H | apply H].
Defined.

(** C6: with an empty instruction, or with no image to edit, Edit sets an
    error and awaits nothing; mode, images, prompts and the loading flag
    stay as they were. *)
Theorem edit_without_instruction_or_image (w : World) (s : State) :
  editPrompt s = "" \/ originalImageForEdit s = None ->
  let s' := fst (handleEdit_begin s) in
  snd (handleEdit_begin s) = None
  /\ handleEdit w s = s'
  /\ (error s' = Some "Please enter an editing instruction."
      \/ error s' = Some "No image loaded for editing.")
  /\ mode s' = mode s
  /\ imageSrc s' = imageSrc s
  /\ originalImageForEdit s' = originalImageForEdit s
  /\ prompt s' = prompt s
  /\ editPrompt s' = editPrompt s
  /\ isLoading s' = isLoading s.
Proof.
  intros H. unfold handleEdit, handleEdit_begin.
  destruct (truthy (editPrompt s)) eqn:Hp; simpl.
  - destruct H as [H | H].
    + rewrite H in Hp. discriminate.
    + rewrite H. simpl. repeat split; auto.
  - repeat split; auto.
Qed.

Lemma edit_without_instruction_or_image_witness :
  let s := setEditPrompt "add a hat" initial in
  (editPrompt s = "" \/ originalImageForEdit s = None)
  /\ snd (handleEdit_begin s) = None
  /\ error (fst (handleEdit_begin s)) = Some "No image loaded for editing.".
Proof.
  pose proof (edit_without_instruction_or_image
                {| generateImages := fun _ => Rejected NonError;
                   generateContent := fun _ => Rejected NonError;
                   readAsDataURL := fun _ => Failed |}
                (setEditPrompt "add a hat" initial)
                (or_intror eq_refl)) as H.
  split; [right; reflexivity |].
  split; [apply H | reflexivity].
Defined.

(** C8: a selected file whose type does not start with [image/] sets an
    error and stops there: nothing is awaited, and mode, the displayed
    image, the edit source and the loading flag stay as they were. *)
Theorem upload_non_image (w : World) (f : File) (s : State) :
  startsWith "image/" (type f) = false ->
  let s' := fst (handleFileChange_begin (Some f) s) in
  snd (handleFileChange_begin (Some f) s) = None
  /\ handleFileChange w (Some f) s = s'
  /\ error s' = Some "Please select an image file."
  /\ mode s' = mode s
  /\ imageSrc s' = imageSrc s
  /\ originalImageForEdit s' = originalImageForEdit s
  /\ isLoading s' = isLoading s.
Proof.
  intros H. unfold handleFileChange, handleFileChange_begin.
  rewrite H. simpl. repeat split; reflexivity.
Qed.

Lemma upload_non_image_witness :
  let f := {| name := "notes.txt"; type := "text/plain" |} in
  startsWith "image/" (type f) = false
  /\ error (fst (handleFileChange_begin (Some f) initial))
     = Some "Please select an image file.".
Proof.
  split; [reflexivity |].
  apply (upload_non_image
           {| generateImages := fun _ => Rejected NonError;
              generateContent := fun _ => Rejected NonError;
              readAsDataURL := fun _ => Failed |}
           {| name := "notes.txt"; type := "text/plain" |} initial eq_refl).
Defined.

End AppFacts.

(** ** Properties of the controller: operations run to their end *)

Module OperationFacts.

Import FileUtils App Wording AppFacts.

(** C3: with a prompt, when [generateImage] resolves with [bytes], Generate
    ends with [bytes] displayed as a JPEG data URL and held as the edit
    source under [image/jpeg], the format the request asked for. *)
Theorem generate_success (w : World) (s : State) (bytes : string) :
  prompt s <> "" ->
  GeminiService.generateImage (prompt s) (aspectRatio s) (generateImages w)
    = Resolved bytes ->
  let s' := handleGenerate w s in
  imageSrc s' = Some ("data:image/jpeg;base64," ++ bytes)
  /\ originalImageForEdit s'
     = Some {| data := Some bytes; mimeType := "image/jpeg" |}
  /\ GeminiService.outputMimeType
       (GeminiService.gi_config
          (GeminiService.generateImage_request (prompt s) (aspectRatio s)))
     = "image/jpeg"
  /\ isLoading s' = false
  /\ error s' = None.
Proof.
  intros Hprompt Hcall.
  unfold handleGenerate.
  rewrite (handleGenerate_begin_issues s Hprompt).
  simpl. rewrite Hcall. simpl. repeat split; reflexivity.
Qed.

Lemma generate_success_witness :
  let s := setPrompt "a red circle" initial in
  let w :=
    {| generateImages := fun _ =>
         Resolved
           {| GeminiService.generatedImages :=
                Some [ {| GeminiService.image :=
                            Some {| GeminiService.imageBytes := Some "QUJD" |} |} ] |};
       generateContent := fun _ => Rejected NonError;
       readAsDataURL := fun _ => Failed |} in
  prompt s <> ""
  /\ imageSrc (handleGenerate w s) = Some "data:image/jpeg;base64,QUJD"
  /\ originalImageForEdit (handleGenerate w s)
     = Some {| data := Some "QUJD"; mimeType := "image/jpeg" |}.
Proof.
  assert (Hprompt : prompt (setPrompt "a red circle" initial) <> "")
    by (simpl; discriminate).
  split; [exact Hprompt |].
  pose proof (generate_success
                {| generateImages := fun _ =>
                     Resolved
                       {| GeminiService.generatedImages :=
                            Some [ {| GeminiService.image :=
                                        Some {| GeminiService.imageBytes :=
                                                  Some "QUJD" |} |} ] |};
                   generateContent := fun _ => Rejected NonError;
                   readAsDataURL := fun _ => Failed |}
                (setPrompt "a red circle" initial) "QUJD"
                Hprompt eq_refl) as (Hsrc & Horig & _).
  split; [exact Hsrc | exact Horig].
Defined.

(** C4: with an instruction and a loaded image, when [editImage] resolves
    with [bytes], Edit ends with [bytes] displayed as a PNG data URL and
    held as the edit source under [image/png]; the next Edit sends these
    very bytes and this MIME type. *)
Theorem edit_success_chains (w : World) (s : State) (original : ImageForEdit)
    (bytes : string) :
  editPrompt s <> "" ->
  originalImageForEdit s = Some original ->
  GeminiService.editImage (editPrompt s) (data original) (mimeType original)
    (generateContent w) = Resolved (Some bytes) ->
  let s' := handleEdit w s in
  imageSrc s' = Some ("data:image/png;base64," ++ bytes)
  /\ originalImageForEdit s'
     = Some {| data := Some bytes; mimeType := "image/png" |}
  /\ snd (handleEdit_begin s')
     = Some (CallEditImage (editPrompt s) (Some bytes) "image/png")
  /\ isLoading s' = false
  /\ error s' = None.
Proof.
  intros Hprompt Himg Hcall.
  unfold handleEdit.
  rewrite (handleEdit_begin_issues s original Hprompt Himg).
  simpl. rewrite Hcall. simpl.
  repeat split; try reflexivity.
  unfold handleEdit_begin. simpl.
  apply truthy_nonempty in Hprompt. rewrite Hprompt. reflexivity.
Qed.

Lemma edit_success_chains_witness :
  let s :=
    setEditPrompt "add a hat"
      (setOriginalImageForEdit
         (Some {| data := Some "QUJD"; mimeType := "image/jpeg" |}) initial) in
  let w :=
    {| generateImages := fun _ => Rejected NonError;
       generateContent := fun _ =>
         Resolved
           {| GeminiService.candidates :=
                Some [ {| GeminiService.content :=
                            Some {| GeminiService.parts :=
                                      Some [ {| GeminiService.inlineData :=
                                                  Some {| GeminiService.data := Some "REVG";
                                                          GeminiService.mimeType :=
                                                            "image/png" |};
                                                GeminiService.text := None |} ] |} |} ] |};
       readAsDataURL := fun _ => Failed |} in
  editPrompt s <> ""
  /\ imageSrc (handleEdit w s) = Some "data:image/png;base64,REVG"
  /\ snd (handleEdit_begin (handleEdit w s))
     = Some (CallEditImage "add a hat" (Some "REVG") "image/png").
Proof.
  intros s w.
  assert (Hprompt : editPrompt s <> "") by (simpl; discriminate).
  split; [exact Hprompt |].
  pose proof (edit_success_chains w s
                {| data := Some "QUJD"; mimeType := "image/jpeg" |} "REVG"
                Hprompt eq_refl eq_refl) as (Hsrc & _ & Hnext & _).
  split; [exact Hsrc | exact Hnext].
Defined.

(** C2: an operation started while nothing is loading ends with the loading
    flag down, and in one of three ways.  Its call resolves: the image handed
    over is displayed and held as the edit source, and there is no error.
    Its call fails: the error slot holds the failure message of the
    operation; Edit and Upload leave the displayed image and the edit source
    as they were, Generate leaves both cleared.  It is turned down before
    any call: the error slot holds a message, and the displayed image and
    the edit source are as they were. *)
Theorem operation_all_or_nothing (w : World) (op : Operation) (s : State) :
  isLoading s = false ->
  let s' := perform w op s in
  isLoading s' = false
  /\ match snd (begin op s) with
     | Some p =>
         match awaited w p with
         | Resolved img =>
             originalImageForEdit s' = Some img
             /\ imageSrc s' = Some (data_url img)
             /\ error s' = None
         | Rejected _ =>
             error s' = Some (failure_message op)
             /\ failure_message op <> ""
             /\ match op with
                | Generate =>
                    imageSrc s' = None /\ originalImageForEdit s' = None
                | Edit | Upload _ =>
                    imageSrc s' = imageSrc s
                    /\ originalImageForEdit s' = originalImageForEdit s
                end
         end
     | None =>
         (exists message, error s' = Some message /\ message <> "")
         /\ imageSrc s' = imageSrc s
         /\ originalImageForEdit s' = originalImageForEdit s
     end.
Proof.
  intros Hidle. unfold perform. destruct op as [| | f]; unfold begin.
  - unfold handleGenerate_begin.
    destruct (truthy (prompt s)); simpl.
    + destruct (GeminiService.generateImage _ _ _) as [bytes | e] eqn:Hcall; simpl.
      * repeat split; reflexivity.
      * apply GeminiServiceFacts.generateImage_rejects_generic in Hcall. subst e.
        repeat split; try reflexivity. discriminate.
    + split; [exact Hidle |]. split; [| split; reflexivity].
      eexists. split; [reflexivity | discriminate].
  - unfold handleEdit_begin.
    destruct (truthy (editPrompt s)); simpl.
    + destruct (originalImageForEdit s) as [original |] eqn:Himg; simpl.
      * destruct (GeminiService.editImage _ _ _ _) as [returned | e] eqn:Hcall;
          simpl.
        -- repeat split; reflexivity.
        -- apply GeminiServiceFacts.editImage_rejects_generic in Hcall. subst e.
           repeat split; try reflexivity; try assumption. discriminate.
      * split; [exact Hidle |]. split; [| split; [reflexivity | exact Himg]].
        eexists. split; [reflexivity | discriminate].
    + split; [exact Hidle |]. split; [| split; reflexivity].
      eexists. split; [reflexivity | discriminate].
  - unfold handleFileChange_begin.
    destruct (startsWith "image/" (type f)); simpl.
    + destruct (fileToBase64 f (readAsDataURL w)) as [payload | e]; simpl.
      * repeat split; reflexivity.
      * repeat split; try reflexivity. discriminate.
    + split; [exact Hidle |]. split; [| split; reflexivity].
      eexists. split; [reflexivity | discriminate].
Qed.

Lemma operation_all_or_nothing_witness :
  let s :=
    setImageSrc (Some "data:image/jpeg;base64,QUJD")
      (setOriginalImageForEdit
         (Some {| data := Some "QUJD"; mimeType := "image/jpeg" |})
         (setPrompt "a red circle" initial)) in
  let w :=
    {| generateImages := fun _ =>
         Resolved {| GeminiService.generatedImages := Some [] |};
       generateContent := fun _ => Rejected NonError;
       readAsDataURL := fun _ => Failed |} in
  isLoading s = false
  /\ snd (begin Generate s) = Some (CallGenerateImage "a red circle" Ratio_1_1)
  /\ isLoading (perform w Generate s) = false
  /\ error (perform w Generate s) = Some GeminiService.generation_failed_message
  /\ imageSrc (perform w Generate s) = None
  /\ originalImageForEdit (perform w Generate s) = None.
Proof.
  intros s w.
  split; [reflexivity |]. split; [reflexivity |].
  pose proof (operation_all_or_nothing w Generate s eq_refl)
    as (Hload & Herr & _ & Hsrc & Horig).
  repeat split; assumption.
Defined.

End OperationFacts.

(** ** Properties of the controller: the loading flag as a gate *)

Module GateFacts.

Import FileUtils App Wording AppFacts.

(** The Generate button cannot be pressed while loading. *)
Lemma generate_button_gated (s : State) :
  enabled s ClickGenerate = true -> isLoading s = false.
Proof.
  simpl. intros H. apply andb_prop in H as [_ H].
  now apply negb_true_iff in H.
Qed.

(** Nor can the Apply Edit button. *)
Lemma edit_button_gated (s : State) :
  enabled s ClickApplyEdit = true -> isLoading s = false.
Proof.
  simpl. intros H. apply andb_prop in H as [_ H].
  apply negb_true_iff, orb_false_iff in H. tauto.
Qed.

(** The file input is there in edit mode, loading or not. *)
Lemma file_input_not_gated (s : State) (file : option File) :
  enabled s (ChooseFile file) = Mode_eqb (mode s) edit.
Proof. reflexivity. Qed.

(** From an idle state a handler either raises the flag and leaves one
    call, or leaves the flag down and no call. *)
Lemma begin_from_idle (op : Operation) (s : State) :
  isLoading s = false ->
  (exists p, snd (begin op s) = Some p /\ isLoading (fst (begin op s)) = true)
  \/ (snd (begin op s) = None /\ isLoading (fst (begin op s)) = false).
Proof.
  intros Hidle. destruct op as [| | f]; simpl.
  - unfold handleGenerate_begin.
    destruct (truthy (prompt s)); simpl; eauto.
  - unfold handleEdit_begin.
    destruct (truthy (editPrompt s)); simpl; eauto.
    destruct (originalImageForEdit s); simpl; eauto.
  - destruct (startsWith "image/" (type f)); simpl; eauto.
Qed.

Lemma issue_from_idle (op : Operation) (sys : System) :
  isLoading (ui sys) = false ->
  inFlight sys = [] ->
  one_at_a_time (issue sys (begin op (ui sys))).
Proof.
  intros Hidle Hnone.
  destruct (begin_from_idle op (ui sys) Hidle) as [(p & Hp & Hl) | (Hp & Hl)];
    destruct (begin op (ui sys)) as [s' o]; simpl in *; subst o; simpl.
  - left. rewrite Hnone. auto.
  - right. auto.
Qed.

Lemma resume_lowers_flag (p : Pending) (a : Answer) (s s' : State) :
  resume p a s = Some s' -> isLoading s' = false.
Proof.
  destruct p, a; simpl; intros H; try discriminate;
    injection H as <-; reflexivity.
Qed.

(** As long as no file is chosen while loading, a step keeps at most one
    call under way. *)
Lemma step_one_at_a_time (e : Event) (sys sys' : System) :
  one_at_a_time sys ->
  match e with
  | ChooseFile (Some _) => isLoading (ui sys) = false
  | _ => True
  end ->
  step e sys = Some sys' ->
  one_at_a_time sys'.
Proof.
  intros Hinv Hgate. unfold step.
  destruct (enabled (ui sys) e) eqn:Hen; [| discriminate].
  destruct e as [m | | v | v | | [f |] | v | | | i a]; simpl;
    try (intros H; injection H as <-; exact Hinv).
  - (* ClickGenerate *)
    intros H. injection H as <-.
    pose proof (generate_button_gated _ Hen) as Hidle.
    destruct Hinv as [[Hl _] | [_ Hnone]]; [congruence |].
    exact (issue_from_idle Generate sys Hidle Hnone).
  - (* ChooseFile (Some f) *)
    intros H. injection H as <-.
    destruct Hinv as [[Hl _] | [_ Hnone]]; [congruence |].
    exact (issue_from_idle (Upload f) sys Hgate Hnone).
  - (* ClickApplyEdit *)
    intros H. injection H as <-.
    pose proof (edit_button_gated _ Hen) as Hidle.
    destruct Hinv as [[Hl _] | [_ Hnone]]; [congruence |].
    exact (issue_from_idle Edit sys Hidle Hnone).
  - (* ClickEditThisImage *)
    intros H. injection H as <-. unfold switchToEditMode.
    destruct (truthy_opt (imageSrc (ui sys))); exact Hinv.
  - (* Settle *)
    destruct (nth_error (inFlight sys) i) as [p |] eqn:Hp; [| discriminate].
    destruct (resume p a (ui sys)) as [s1 |] eqn:Hres; [| discriminate].
    intros H. injection H as <-. right. simpl.
    split; [exact (resume_lowers_flag _ _ _ _ Hres) |].
    destruct Hinv as [[_ Hone] | [_ Hnone]].
    + destruct (inFlight sys) as [| q [| q' qs]]; try discriminate.
      destruct i as [| [| i]]; simpl in *; try discriminate; reflexivity.
    + rewrite Hnone in Hp. destruct i; discriminate.
Qed.

(** The gate holds along every run in which files are chosen only while
    idle: Generate and Edit never start a second call. *)
Lemma run_one_at_a_time (es : list Event) (sys sys' : System) :
  one_at_a_time sys ->
  uploads_when_idle es sys = true ->
  run es sys = Some sys' ->
  one_at_a_time sys'.
Proof.
  revert sys. induction es as [| e rest IH]; simpl; intros sys Hinv Hidle Hrun.
  - injection Hrun as <-. exact Hinv.
  - apply andb_prop in Hidle as [Hnow Hlater].
    destruct (step e sys) as [sys1 |] eqn:Hstep; [| discriminate].
    apply (IH sys1); try assumption.
    apply (step_one_at_a_time e sys sys1 Hinv); [| exact Hstep].
    destruct e as [| | | | | [f |] | | | |]; try exact I.
    now apply negb_true_iff in Hnow.
Qed.

(** C1 does not hold of Upload: while one file is being read and
    [isLoading] is true, the file input accepts another file and a second
    read starts. *)
Theorem upload_starts_second_operation_while_loading :
  let cat := {| name := "cat.png"; type := "image/png" |} in
  let dog := {| name := "dog.png"; type := "image/png" |} in
  exists sys sys',
    run [ClickTab edit; ChooseFile (Some cat)] start = Some sys
    /\ isLoading (ui sys) = true
    /\ inFlight sys = [CallFileToBase64 cat]
    /\ isOperation (ChooseFile (Some dog)) = true
    /\ step (ChooseFile (Some dog)) sys = Some sys'
    /\ isLoading (ui sys') = true
    /\ inFlight sys' = [CallFileToBase64 cat; CallFileToBase64 dog].
Proof.
  eexists. eexists. repeat split; reflexivity.
Qed.

(** The same through Generate: while the image is being generated the Edit
    tab and its file input stay usable; once the read has settled the flag
    is down although the generation is still under way. *)
Lemma upload_during_generate :
  let cat := {| name := "cat.png"; type := "image/png" |} in
  exists sys sys',
    run [TypePrompt "a red circle"; ClickGenerate; ClickTab edit;
         ChooseFile (Some cat)] start = Some sys
    /\ isLoading (ui sys) = true
    /\ inFlight sys = [CallGenerateImage "a red circle" Ratio_1_1;
                       CallFileToBase64 cat]
    /\ step (Settle 1 (ReadAnswer Failed)) sys = Some sys'
    /\ isLoading (ui sys') = false
    /\ inFlight sys' = [CallGenerateImage "a red circle" Ratio_1_1].
Proof.
  eexists. eexists. repeat split; reflexivity.
Qed.

End GateFacts.

(** ** Further properties of the service client and of the file reader *)

Module ServiceEdgeFacts.

Import FileUtils Wording.

Lemma truthy_iff_nonempty (v : string) : truthy v = true <-> v <> "".
Proof.
  destruct v; simpl; split; intros H; try reflexivity;
    try discriminate; contradiction.
Qed.

(** X1: [generateImage] resolves exactly when the remote call resolves with a
    non-empty list whose first image carries non-empty bytes, and then with
    these bytes; it never resolves with the empty string. *)
Theorem generateImage_resolves_with_first_bytes
    (prompt : string) (ratio : AspectRatio)
    (generateImages :
       GeminiService.GenerateImagesParameters ->
       Settled GeminiService.GenerateImagesResponse)
    (bytes : string) :
  GeminiService.generateImage prompt ratio generateImages = Resolved bytes <->
  exists first later,
    generateImages (GeminiService.generateImage_request prompt ratio)
    = Resolved {| GeminiService.generatedImages := Some (first :: later) |}
    /\ bytes_of first = Some bytes
    /\ bytes <> "".
Proof.
  unfold GeminiService.generateImage.
  rewrite GeminiServiceFacts.generateImage_resolved.
  split; intros (first & later & Hanswer & Hbytes & Hne);
    exists first, later; repeat split; try assumption;
    now apply truthy_iff_nonempty.
Qed.

(** X2: whatever makes [generateImage] fail, the caller receives an [Error]
    with the one generic message; the message of the inner [throw] about a
    blocked response never leaves the function. *)
Theorem generateImage_failure_is_generic
    (prompt : string) (ratio : AspectRatio)
    (generateImages :
       GeminiService.GenerateImagesParameters ->
       Settled GeminiService.GenerateImagesResponse)
    (e : Thrown) :
  GeminiService.generateImage prompt ratio generateImages = Rejected e ->
  e = ErrorObj GeminiService.generation_failed_message
  /\ e <> ErrorObj GeminiService.generation_blocked_message.
Proof.
  intros H. apply GeminiServiceFacts.generateImage_rejects_generic in H.
  subst e. split; [reflexivity | discriminate].
Qed.

Lemma generateImage_failure_is_generic_witness :
  let blocked := fun _ : GeminiService.GenerateImagesParameters =>
    Resolved {| GeminiService.generatedImages := Some [] |} in
  GeminiService.generateImage "a red circle" Ratio_1_1 blocked
  = Rejected (ErrorObj GeminiService.generation_failed_message)
  /\ ErrorObj GeminiService.generation_failed_message
     <> ErrorObj GeminiService.generation_blocked_message.
Proof.
  intros blocked. split; [reflexivity |].
  apply (generateImage_failure_is_generic "a red circle" Ratio_1_1 blocked).
  reflexivity.
Defined.

(** X3: [editImage] reads the parts of the first candidate only: when that
    candidate has no part with inline data (or no content at all) the call
    fails, whatever the later candidates carry. *)
Theorem editImage_looks_at_first_candidate_only
    (prompt : string) (imageDataBase64 : option string) (mime : string)
    (generateContent :
       GeminiService.GenerateContentParameters ->
       Settled GeminiService.GenerateContentResponse)
    (first : GeminiService.Candidate) (later : list GeminiService.Candidate) :
  generateContent (GeminiService.editImage_request prompt imageDataBase64 mime)
  = Resolved {| GeminiService.candidates := Some (first :: later) |} ->
  inline_payloads (candidate_parts first) = [] ->
  GeminiService.editImage prompt imageDataBase64 mime generateContent
  = Rejected (ErrorObj GeminiService.edit_failed_message).
Proof.
  intros Hanswer Hnone.
  unfold GeminiService.editImage. rewrite Hanswer.
  unfold GeminiService.editImage_settle, try_catch, bind,
    GeminiService.editImage_parts.
  simpl. unfold candidate_parts in Hnone.
  destruct (GeminiService.content first) as [ct |]; [| reflexivity].
  destruct (GeminiService.parts ct) as [ps |]; [| reflexivity].
  rewrite GeminiServiceFacts.editImage_scan_first, Hnone. reflexivity.
Qed.

Lemma editImage_looks_at_first_candidate_only_witness :
  let picture :=
    {| GeminiService.inlineData :=
         Some {| GeminiService.data := Some "REVG";
                 GeminiService.mimeType := "image/png" |};
       GeminiService.text := None |} in
  let words :=
    {| GeminiService.inlineData := None; GeminiService.text := Some "no" |} in
  let first :=
    {| GeminiService.content := Some {| GeminiService.parts := Some [words] |} |} in
  let second :=
    {| GeminiService.content := Some {| GeminiService.parts := Some [picture] |} |} in
  inline_payloads (candidate_parts second) = [Some "REVG"]
  /\ GeminiService.editImage "add a hat" (Some "QUJD") "image/jpeg"
       (fun _ => Resolved {| GeminiService.candidates := Some [first; second] |})
     = Rejected (ErrorObj GeminiService.edit_failed_message).
Proof.
  intros picture words first second. split; [reflexivity |].
  apply (editImage_looks_at_first_candidate_only
           "add a hat" (Some "QUJD") "image/jpeg" _ first [second]); reflexivity.
Defined.

Lemma until_has_no_sep (sep : ascii) (s : string) :
  occurs sep (until sep s) = false.
Proof.
  induction s as [| c rest IH]; simpl.
  - reflexivity.
  - destruct (Ascii.eqb c sep) eqn:Hc; simpl.
    + reflexivity.
    + rewrite Hc. exact IH.
Qed.

Lemma after_first_skips (sep : ascii) (pre tail : string) :
  occurs sep pre = false ->
  after_first sep (pre ++ tail) = after_first sep tail.
Proof.
  induction pre as [| c rest IH]; simpl; intros H.
  - reflexivity.
  - apply orb_false_iff in H as [Hc Hrest].
    rewrite Hc. exact (IH Hrest).
Qed.

(** X4: a payload handed over by [fileToBase64] is never empty, holds no
    comma, and comes with the file's own [type] as its MIME type. *)
Theorem fileToBase64_payload_shape
    (file : File) (readAsDataURL : File -> ReadOutcome) (payload : Payload) :
  fileToBase64 file readAsDataURL = Resolved payload ->
  base64 payload <> ""
  /\ occurs "," (base64 payload) = false
  /\ FileUtils.mimeType payload = type file.
Proof.
  unfold fileToBase64, fileToBase64_settle.
  destruct (readAsDataURL file) as [result |]; [| discriminate].
  rewrite FileUtilsFacts.split_second.
  destruct (after_first "," result) as [tail |]; simpl; [| discriminate].
  destruct (truthy (until "," tail)) eqn:Hne; [| discriminate].
  intros H. injection H as <-. simpl.
  split; [now apply truthy_iff_nonempty |].
  split; [apply until_has_no_sep | reflexivity].
Qed.

Lemma fileToBase64_payload_shape_witness :
  let file := {| name := "cat.png"; type := "image/png" |} in
  let reader := fun _ : File => Loaded "data:image/png;base64,QUJD" in
  fileToBase64 file reader
  = Resolved {| base64 := "QUJD"; FileUtils.mimeType := "image/png" |}
  /\ occurs "," "QUJD" = false.
Proof.
  intros file reader. split; [reflexivity |].
  apply (fileToBase64_payload_shape file reader
           {| base64 := "QUJD"; FileUtils.mimeType := "image/png" |} eq_refl).
Defined.

Lemma fileToBase64_settle_data_url (file : File) (mime payload : string) :
  occurs "," mime = false ->
  occurs "," payload = false ->
  payload <> "" ->
  fileToBase64_settle file (Loaded (data_url_of mime payload))
  = Resolved {| base64 := payload; FileUtils.mimeType := type file |}.
Proof.
  intros Hmime Hpayload Hne.
  unfold fileToBase64_settle, data_url_of.
  rewrite FileUtilsFacts.split_second.
  rewrite (after_first_skips "," "data:" _ eq_refl).
  rewrite (after_first_skips "," mime _ Hmime).
  simpl.
  rewrite (FileUtilsFacts.until_without_sep _ _ Hpayload).
  apply truthy_iff_nonempty in Hne. rewrite Hne. reflexivity.
Qed.

Lemma fileToBase64_settle_mime (file : File) (outcome : ReadOutcome) (payload : Payload) :
  fileToBase64_settle file outcome = Resolved payload ->
  FileUtils.mimeType payload = type file.
Proof.
  unfold fileToBase64_settle.
  destruct outcome as [result |]; [| discriminate].
  destruct (nth_error (split "," result) 1) as [b |]; [| discriminate].
  destruct (truthy b); [| discriminate].
  intros H. injection H as <-. reflexivity.
Qed.

(** X5: [fileToBase64] gives back the payload of a data URL: from
    [data:<mime>;base64,<payload>], with no comma in [mime] or [payload] and
    a payload that is not empty, it resolves with exactly [payload], and
    with the file's [type] whatever [mime] the URL names. *)
Theorem fileToBase64_of_data_url (file : File) (mime payload : string) :
  occurs "," mime = false ->
  occurs "," payload = false ->
  payload <> "" ->
  fileToBase64 file (fun _ => Loaded (data_url_of mime payload))
  = Resolved {| base64 := payload; FileUtils.mimeType := type file |}.
Proof.
  intros Hmime Hpayload Hne. unfold fileToBase64.
  exact (fileToBase64_settle_data_url file mime payload Hmime Hpayload Hne).
Qed.

Lemma fileToBase64_of_data_url_witness :
  let file := {| name := "cat"; type := "" |} in
  occurs "," "application/octet-stream" = false
  /\ fileToBase64 file
       (fun _ => Loaded "data:application/octet-stream;base64,QUJD")
     = Resolved {| base64 := "QUJD"; FileUtils.mimeType := "" |}.
Proof.
  intros file. split; [reflexivity |].
  apply (fileToBase64_of_data_url file "application/octet-stream" "QUJD");
    [reflexivity | reflexivity | discriminate].
Defined.

End ServiceEdgeFacts.

(** ** Further properties of single operations *)

Module OperationEdgeFacts.

Import FileUtils App Wording.

(** X6: for a file of an image type, when [fileToBase64] resolves, Upload
    ends in edit mode with the payload displayed under the file's own type
    and held as the edit source, the loading flag down and no error. *)
Theorem upload_success (w : World) (f : File) (s : State) (payload : Payload) :
  startsWith "image/" (type f) = true ->
  fileToBase64 f (readAsDataURL w) = Resolved payload ->
  let s' := handleFileChange w (Some f) s in
  imageSrc s' = Some ("data:" ++ type f ++ ";base64," ++ base64 payload)
  /\ originalImageForEdit s'
     = Some {| data := Some (base64 payload); mimeType := type f |}
  /\ mode s' = edit
  /\ isLoading s' = false
  /\ error s' = None.
Proof.
  intros Htype Hread.
  pose proof (ServiceEdgeFacts.fileToBase64_settle_mime _ _ _ Hread) as Hmime.
  unfold handleFileChange.
  rewrite (AppFacts.handleFileChange_begin_issues s f Htype).
  simpl. rewrite Hread. simpl. rewrite Hmime.
  repeat split; reflexivity.
Qed.

Lemma upload_success_witness :
  let f := {| name := "cat.png"; type := "image/png" |} in
  let w :=
    {| generateImages := fun _ => Rejected NonError;
       generateContent := fun _ => Rejected NonError;
       readAsDataURL := fun _ => Loaded "data:image/png;base64,QUJD" |} in
  startsWith "image/" (type f) = true
  /\ imageSrc (handleFileChange w (Some f) initial)
     = Some "data:image/png;base64,QUJD"
  /\ mode (handleFileChange w (Some f) initial) = edit.
Proof.
  intros f w. split; [reflexivity |].
  pose proof (upload_success w f initial
                {| base64 := "QUJD"; FileUtils.mimeType := "image/png" |}
                eq_refl eq_refl) as (Hsrc & _ & Hmode & _).
  split; [exact Hsrc | exact Hmode].
Defined.

(** X7: when the reader hands over the data URL of the file under the
    file's own type, the URL Upload displays is that very URL: taking the
    payload out and putting the URL together again loses nothing. *)
Theorem upload_displays_read_result (w : World) (f : File) (s : State)
    (payload : string) :
  startsWith "image/" (type f) = true ->
  occurs "," (type f) = false ->
  occurs "," payload = false ->
  payload <> "" ->
  readAsDataURL w f = Loaded (data_url_of (type f) payload) ->
  imageSrc (handleFileChange w (Some f) s)
  = Some (data_url_of (type f) payload).
Proof.
  intros Htype Hmime Hpayload Hne Hread.
  unfold handleFileChange.
  rewrite (AppFacts.handleFileChange_begin_issues s f Htype).
  simpl. unfold fileToBase64. rewrite Hread.
  rewrite (ServiceEdgeFacts.fileToBase64_settle_data_url
             f (type f) payload Hmime Hpayload Hne).
  reflexivity.
Qed.

Lemma upload_displays_read_result_witness :
  let f := {| name := "cat.png"; type := "image/png" |} in
  let w :=
    {| generateImages := fun _ => Rejected NonError;
       generateContent := fun _ => Rejected NonError;
       readAsDataURL := fun _ => Loaded "data:image/png;base64,QUJD" |} in
  occurs "," (type f) = false
  /\ imageSrc (handleFileChange w (Some f) initial)
     = Some "data:image/png;base64,QUJD".
Proof.
  intros f w. split; [reflexivity |].
  apply (upload_displays_read_result w f initial "QUJD");
    try reflexivity. discriminate.
Defined.

(** X8: no operation, however it ends, alters what the user typed or chose:
    both prompts and the aspect ratio stay; the mode stays too, except that
    an Upload that ends without an error leaves the edit mode on. *)
Theorem operations_keep_inputs (w : World) (op : Operation) (s : State) :
  let s' := perform w op s in
  prompt s' = prompt s
  /\ editPrompt s' = editPrompt s
  /\ aspectRatio s' = aspectRatio s
  /\ match op with
     | Generate | Edit => mode s' = mode s
     | Upload _ => mode s' = mode s \/ (mode s' = edit /\ error s' = None)
     end.
Proof.
  unfold perform. destruct op as [| | f]; simpl.
  - unfold handleGenerate_begin.
    destruct (truthy (prompt s)); simpl; [| repeat split; reflexivity].
    destruct (GeminiService.generateImage _ _ _); repeat split; reflexivity.
  - unfold handleEdit_begin.
    destruct (truthy (editPrompt s)); simpl; [| repeat split; reflexivity].
    destruct (originalImageForEdit s) as [original |]; simpl;
      [| repeat split; reflexivity].
    destruct (GeminiService.editImage _ _ _ _); repeat split; reflexivity.
  - destruct (startsWith "image/" (type f)); simpl;
      [| repeat split; try reflexivity; left; reflexivity].
    destruct (fileToBase64 f (readAsDataURL w)); simpl;
      repeat split; try reflexivity; [right | left]; auto.
Qed.

(** X15: unlike [generateImage], [editImage] does not look at the payload
    it returns: when the first part with inline data of the first candidate
    holds the empty string, Edit ends as a success, with an empty PNG data
    URL displayed, an empty edit source and no error. *)
Theorem edit_accepts_empty_payload (w : World) (s : State)
    (original : ImageForEdit) (ps : list GeminiService.Part)
    (later : list GeminiService.Candidate) :
  editPrompt s <> "" ->
  originalImageForEdit s = Some original ->
  generateContent w
    (GeminiService.editImage_request (editPrompt s) (data original) (mimeType original))
  = Resolved
      {| GeminiService.candidates :=
           Some ({| GeminiService.content :=
                      Some {| GeminiService.parts := Some ps |} |} :: later) |} ->
  hd_error (inline_payloads ps) = Some (Some "") ->
  let s' := handleEdit w s in
  imageSrc s' = Some "data:image/png;base64,"
  /\ originalImageForEdit s'
     = Some {| data := Some ""; mimeType := "image/png" |}
  /\ error s' = None
  /\ isLoading s' = false.
Proof.
  intros Hprompt Himg Hanswer Hempty.
  unfold handleEdit.
  rewrite (AppFacts.handleEdit_begin_issues s original Hprompt Himg).
  simpl. unfold GeminiService.editImage. rewrite Hanswer.
  unfold GeminiService.editImage_settle, try_catch, bind,
    GeminiService.editImage_parts.
  simpl. rewrite GeminiServiceFacts.editImage_scan_first, Hempty.
  simpl. repeat split; reflexivity.
Qed.

Lemma edit_accepts_empty_payload_witness :
  let s :=
    setEditPrompt "add a hat"
      (setOriginalImageForEdit
         (Some {| data := Some "QUJD"; mimeType := "image/jpeg" |}) initial) in
  let hollow :=
    {| GeminiService.inlineData :=
         Some {| GeminiService.data := Some "";
                 GeminiService.mimeType := "image/png" |};
       GeminiService.text := None |} in
  let w :=
    {| generateImages := fun _ => Rejected NonError;
       generateContent := fun _ =>
         Resolved
           {| GeminiService.candidates :=
                Some [ {| GeminiService.content :=
                            Some {| GeminiService.parts := Some [hollow] |} |} ] |};
       readAsDataURL := fun _ => Failed |} in
  editPrompt s <> ""
  /\ imageSrc (handleEdit w s) = Some "data:image/png;base64,"
  /\ error (handleEdit w s) = None.
Proof.
  intros s hollow w.
  assert (Hprompt : editPrompt s <> "") by (simpl; discriminate).
  split; [exact Hprompt |].
  pose proof (edit_accepts_empty_payload w s
                {| data := Some "QUJD"; mimeType := "image/jpeg" |} [hollow] []
                Hprompt eq_refl eq_refl eq_refl) as (Hsrc & _ & Herr & _).
  split; [exact Hsrc | exact Herr].
Defined.

(** When the first part with [inlineData] has no [data], Edit ends as a
    success all the same: the text "undefined" stands where the bytes should,
    and the edit source holds no bytes for the next Edit to send. *)
Lemma edit_without_bytes_displays_undefined :
  let s :=
    setEditPrompt "add a hat"
      (setOriginalImageForEdit
         (Some {| data := Some "QUJD"; mimeType := "image/jpeg" |}) initial) in
  let hollow :=
    {| GeminiService.inlineData :=
         Some {| GeminiService.data := None;
                 GeminiService.mimeType := "image/png" |};
       GeminiService.text := None |} in
  let w :=
    {| generateImages := fun _ => Rejected NonError;
       generateContent := fun _ =>
         Resolved
           {| GeminiService.candidates :=
                Some [ {| GeminiService.content :=
                            Some {| GeminiService.parts := Some [hollow] |} |} ] |};
       readAsDataURL := fun _ => Failed |} in
  imageSrc (handleEdit w s) = Some "data:image/png;base64,undefined"
  /\ originalImageForEdit (handleEdit w s)
     = Some {| data := None; mimeType := "image/png" |}
  /\ error (handleEdit w s) = None
  /\ snd (handleEdit_begin (handleEdit w s))
     = Some (CallEditImage "add a hat" None "image/png").
Proof.
  repeat split; reflexivity.
Qed.

End OperationEdgeFacts.

(** ** What holds in every state the interface can reach *)

Module ReachableFacts.

Import FileUtils App Wording.

(** A property kept by every step is kept by every run. *)
Lemma run_keeps (P : System -> Prop) :
  (forall e sys sys', P sys -> step e sys = Some sys' -> P sys') ->
  forall es sys sys', P sys -> run es sys = Some sys' -> P sys'.
Proof.
  intros Hstep es. induction es as [| e rest IH]; simpl; intros sys sys' HP Hrun.
  - injection Hrun as <-. exact HP.
  - destruct (step e sys) as [sys1 |] eqn:Hs; [| discriminate].
    exact (IH sys1 sys' (Hstep e sys sys1 HP Hs) Hrun).
Qed.

(** The ways a step can change the component's state. *)
Lemma step_ui (e : Event) (sys sys' : System) :
  step e sys = Some sys' ->
  (exists m, ui sys' = handleModeChange m (ui sys))
  \/ ui sys' = clearError (ui sys)
  \/ (exists v, ui sys' = setPrompt v (ui sys))
  \/ (exists v, ui sys' = setAspectRatio v (ui sys))
  \/ (exists v, ui sys' = setEditPrompt v (ui sys))
  \/ (enabled (ui sys) ClickEditThisImage = true
      /\ ui sys' = switchToEditMode (ui sys))
  \/ (exists op, ui sys' = fst (begin op (ui sys)))
  \/ ui sys' = ui sys
  \/ (exists p a, In p (inFlight sys) /\ resume p a (ui sys) = Some (ui sys')).
Proof.
  unfold step. destruct (enabled (ui sys) e) eqn:Hen; [| discriminate].
  destruct e as [m | | v | v | | [f |] | v | | | i a]; simpl;
    try (intros H; injection H as <-; simpl).
  - left. eauto.
  - right. left. reflexivity.
  - do 2 right. left. eauto.
  - do 3 right. left. eauto.
  - do 6 right. left. exists Generate. simpl.
    destruct (handleGenerate_begin (ui sys)) as [s1 [p |]]; reflexivity.
  - do 6 right. left. exists (Upload f). simpl.
    destruct (if negb (startsWith "image/" (type f))
              then _ else _) as [s1 [p |]]; reflexivity.
  - do 7 right. left. reflexivity.
  - do 4 right. left. eauto.
  - do 6 right. left. exists Edit. simpl.
    destruct (handleEdit_begin (ui sys)) as [s1 [p |]]; reflexivity.
  - do 5 right. left. split; [exact Hen | reflexivity].
  - destruct (nth_error (inFlight sys) i) as [p |] eqn:Hp; [| discriminate].
    destruct (resume p a (ui sys)) as [s1 |] eqn:Hres; [| discriminate].
    intros H. injection H as <-. simpl.
    do 8 right. exists p, a. split; [exact (nth_error_In _ _ Hp) | exact Hres].
Qed.

(** *** The displayed image and the edit source *)

Lemma begin_keeps_sync (op : Operation) (s : State) :
  image_in_sync s -> image_in_sync (fst (begin op s)).
Proof.
  unfold image_in_sync. intros H. destruct op as [| | f]; simpl.
  - unfold handleGenerate_begin. destruct (truthy (prompt s)); simpl;
      [reflexivity | exact H].
  - unfold handleEdit_begin. destruct (truthy (editPrompt s)); simpl;
      [| exact H].
    destruct (originalImageForEdit s) eqn:Himg; simpl; rewrite ?Himg; exact H.
  - destruct (startsWith "image/" (type f)); simpl; exact H.
Qed.

Lemma resume_keeps_sync (p : Pending) (a : Answer) (s s' : State) :
  image_in_sync s -> resume p a s = Some s' -> image_in_sync s'.
Proof.
  unfold image_in_sync. intros H.
  destruct p as [pr ratio | pr bytes mime | f], a as [r | r | r]; simpl;
    try discriminate; intros E; injection E as <-.
  - destruct (GeminiService.generateImage _ _ _); simpl; [reflexivity | exact H].
  - destruct (GeminiService.editImage _ _ _ _); simpl; [reflexivity | exact H].
  - destruct (fileToBase64 _ _); simpl; [reflexivity | exact H].
Qed.

Lemma step_keeps_sync (e : Event) (sys sys' : System) :
  image_in_sync (ui sys) -> step e sys = Some sys' -> image_in_sync (ui sys').
Proof.
  intros H Hstep.
  destruct (step_ui e sys sys' Hstep)
    as [(m & E) | [E | [(v & E) | [(v & E) | [(v & E) | [(_ & E) |
        [(op & E) | [E | (p & a & _ & E)]]]]]]]];
    try (rewrite E; exact H).
  - rewrite E. unfold switchToEditMode.
    destruct (truthy_opt (imageSrc (ui sys))); exact H.
  - rewrite E. exact (begin_keeps_sync op _ H).
  - exact (resume_keeps_sync p a _ _ H E).
Qed.

Lemma run_keeps_sync (es : list Event) (sys sys' : System) :
  image_in_sync (ui sys) -> run es sys = Some sys' -> image_in_sync (ui sys').
Proof.
  exact (run_keeps (fun x => image_in_sync (ui x)) step_keeps_sync es sys sys').
Qed.

(** X9: in every state the interface can reach, in whatever order calls were
    started and settled, the displayed image is the data URL of the edit
    source, and nothing is displayed when there is no edit source. *)
Theorem displayed_image_is_edit_source (es : list Event) (sys : System) :
  run es start = Some sys ->
  match originalImageForEdit (ui sys) with
  | Some img =>
      imageSrc (ui sys)
      = Some ("data:" ++ mimeType img ++ ";base64," ++ template (data img))
  | None => imageSrc (ui sys) = None
  end.
Proof.
  intros Hrun.
  exact (run_keeps_sync es start sys eq_refl Hrun).
Qed.

Lemma displayed_image_is_edit_source_witness :
  let cat := {| name := "cat.png"; type := "image/png" |} in
  let es :=
    [ TypePrompt "a red circle"; ClickGenerate; ClickTab edit;
      ChooseFile (Some cat);
      Settle 1 (ReadAnswer (Loaded "data:image/png;base64,QUJD"));
      Settle 0 (ImagesAnswer (Rejected NonError)) ] in
  exists sys,
    run es start = Some sys
    /\ originalImageForEdit (ui sys)
       = Some {| data := Some "QUJD"; mimeType := "image/png" |}
    /\ imageSrc (ui sys) = Some "data:image/png;base64,QUJD".
Proof.
  intros cat es.
  eexists. split; [reflexivity |]. split; [reflexivity |].
  exact (displayed_image_is_edit_source es _ eq_refl).
Defined.

(** X10: wherever the "Edit this Image" button can be pressed, pressing it
    leads to the edit mode with the "Apply Edit" button ready: a displayed
    image always has its edit source. *)
Theorem edit_this_image_opens_editor (es : list Event) (sys sys' : System) :
  run es start = Some sys ->
  step ClickEditThisImage sys = Some sys' ->
  mode (ui sys') = edit
  /\ enabled (ui sys') ClickApplyEdit = true
  /\ enabled (ui sys') (TypeEditPrompt "") = true.
Proof.
  intros Hrun. pose proof (run_keeps_sync es start sys eq_refl Hrun) as Hsync.
  unfold step. destruct (enabled (ui sys) ClickEditThisImage) eqn:Hen;
    [| discriminate].
  simpl. intros H. injection H as <-. simpl in *.
  apply andb_prop in Hen as [Hsrc Hidle].
  unfold switchToEditMode. rewrite Hsrc. simpl.
  unfold image_in_sync in Hsync.
  destruct (originalImageForEdit (ui sys)) as [img |].
  - apply negb_true_iff in Hidle. rewrite Hidle. repeat split; reflexivity.
  - rewrite Hsync in Hsrc. discriminate.
Qed.

Lemma edit_this_image_opens_editor_witness :
  let es :=
    [ TypePrompt "a red circle"; ClickGenerate;
      Settle 0 (ImagesAnswer
                  (Resolved
                     {| GeminiService.generatedImages :=
                          Some [ {| GeminiService.image :=
                                      Some {| GeminiService.imageBytes :=
                                                Some "QUJD" |} |} ] |})) ] in
  exists sys sys',
    run es start = Some sys
    /\ mode (ui sys) = generate
    /\ step ClickEditThisImage sys = Some sys'
    /\ enabled (ui sys') ClickApplyEdit = true.
Proof.
  intros es. eexists. eexists.
  split; [reflexivity |]. split; [reflexivity |]. split; [reflexivity |].
  apply (edit_this_image_opens_editor es _ _ eq_refl eq_refl).
Defined.

(** *** The error slot *)

Lemma shown_not_unseen (message : string) :
  In message shown_messages -> ~ In message unseen_messages.
Proof.
  unfold shown_messages, unseen_messages.
  intros Hshown Hunseen. simpl in Hshown.
  repeat (destruct Hshown as [<- | Hshown];
          [ simpl in Hunseen;
            repeat (destruct Hunseen as [Hunseen | Hunseen];
                    [discriminate Hunseen |]);
            exact Hunseen |]).
  exact Hshown.
Qed.

Lemma begin_keeps_error (op : Operation) (s : State) :
  error_is_shown_message s -> error_is_shown_message (fst (begin op s)).
Proof.
  unfold error_is_shown_message, shown_messages. intros H.
  destruct op as [| | f]; simpl.
  - unfold handleGenerate_begin. destruct (truthy (prompt s)); simpl; auto.
  - unfold handleEdit_begin. destruct (truthy (editPrompt s)); simpl; auto.
    destruct (originalImageForEdit s); simpl; auto.
  - destruct (startsWith "image/" (type f)); simpl; auto.
Qed.

Lemma resume_keeps_error (p : Pending) (a : Answer) (s s' : State) :
  error_is_shown_message s -> resume p a s = Some s' -> error_is_shown_message s'.
Proof.
  unfold error_is_shown_message, shown_messages. intros H.
  destruct p as [pr ratio | pr bytes mime | f], a as [r | r | r]; simpl;
    try discriminate; intros E; injection E as <-.
  - destruct (GeminiService.generateImage _ _ _) as [b | e] eqn:Hcall; simpl;
      [exact H |].
    apply GeminiServiceFacts.generateImage_rejects_generic in Hcall. subst e.
    simpl. auto 10.
  - destruct (GeminiService.editImage _ _ _ _) as [b | e] eqn:Hcall; simpl;
      [exact H |].
    apply GeminiServiceFacts.editImage_rejects_generic in Hcall. subst e.
    simpl. auto 10.
  - destruct (fileToBase64 _ _); simpl; [exact H | auto 10].
Qed.

Lemma step_keeps_error (e : Event) (sys sys' : System) :
  error_is_shown_message (ui sys) -> step e sys = Some sys' ->
  error_is_shown_message (ui sys').
Proof.
  intros H Hstep.
  destruct (step_ui e sys sys' Hstep)
    as [(m & E) | [E | [(v & E) | [(v & E) | [(v & E) | [(_ & E) |
        [(op & E) | [E | (p & a & _ & E)]]]]]]]];
    try (rewrite E; exact H); try (rewrite E; exact I).
  - rewrite E. unfold switchToEditMode.
    destruct (truthy_opt (imageSrc (ui sys))); exact H.
  - rewrite E. exact (begin_keeps_error op _ H).
  - exact (resume_keeps_error p a _ _ H E).
Qed.

(** X11: in every state the interface can reach, the error slot is empty or
    holds one of seven fixed messages; the two "unknown error" fallbacks of
    the handlers and the inner messages of the service client and of the
    file reader are never shown. *)
Theorem error_slot_holds_a_shown_message
    (es : list Event) (sys : System) (message : string) :
  run es start = Some sys ->
  error (ui sys) = Some message ->
  In message shown_messages
  /\ ~ In message unseen_messages
  /\ enabled (ui sys) DismissError = true.
Proof.
  intros Hrun Herr.
  pose proof (run_keeps (fun x => error_is_shown_message (ui x))
                step_keeps_error es start sys I Hrun) as H.
  unfold error_is_shown_message in H. rewrite Herr in H.
  split; [exact H |]. split; [exact (shown_not_unseen _ H) |].
  simpl. rewrite Herr. simpl.
  unfold shown_messages in H. simpl in H.
  repeat (destruct H as [<- | H]; [reflexivity |]). contradiction.
Qed.

Lemma error_slot_holds_a_shown_message_witness :
  let es :=
    [ TypePrompt "a red circle"; ClickGenerate;
      Settle 0 (ImagesAnswer (Rejected NonError)) ] in
  exists sys,
    run es start = Some sys
    /\ error (ui sys) = Some GeminiService.generation_failed_message
    /\ ~ In GeminiService.generation_failed_message unseen_messages.
Proof.
  intros es. eexists. split; [reflexivity |]. split; [reflexivity |].
  apply (error_slot_holds_a_shown_message es _ _ eq_refl eq_refl).
Defined.

(** *** The loading flag and the calls under way *)

Lemma step_keeps_loading_backed (e : Event) (sys sys' : System) :
  (isLoading (ui sys) = true -> inFlight sys <> []) ->
  step e sys = Some sys' ->
  isLoading (ui sys') = true -> inFlight sys' <> [].
Proof.
  intros Hinv. unfold step.
  destruct (enabled (ui sys) e); [| discriminate].
  assert (Hissue : forall r : State * option Pending,
             (snd r = None -> isLoading (fst r) = isLoading (ui sys)) ->
             isLoading (ui (issue sys r)) = true -> inFlight (issue sys r) <> []).
  { intros [s1 [p |]] Hnone; simpl.
    - intros _ Habs. apply app_eq_nil in Habs as [_ Habs]. discriminate.
    - intros Hl. apply Hinv. rewrite <- (Hnone eq_refl). exact Hl. }
  destruct e as [m | | v | v | | [f |] | v | | | i a]; simpl;
    try (intros H; injection H as <-; simpl; exact Hinv).
  - intros H. injection H as <-. apply Hissue.
    unfold handleGenerate_begin.
    destruct (truthy (prompt (ui sys))); simpl; [discriminate | reflexivity].
  - intros H. injection H as <-. apply Hissue. simpl.
    destruct (startsWith "image/" (type f)); simpl; [discriminate | reflexivity].
  - intros H. injection H as <-. apply Hissue.
    unfold handleEdit_begin.
    destruct (truthy (editPrompt (ui sys))); simpl; [| reflexivity].
    destruct (originalImageForEdit (ui sys)); simpl; [discriminate | reflexivity].
  - intros H. injection H as <-. simpl. unfold switchToEditMode.
    destruct (truthy_opt (imageSrc (ui sys))); exact Hinv.
  - destruct (nth_error (inFlight sys) i) as [p |]; [| discriminate].
    destruct (resume p a (ui sys)) as [s1 |] eqn:Hres; [| discriminate].
    intros H. injection H as <-. simpl.
    rewrite (GateFacts.resume_lowers_flag _ _ _ _ Hres). discriminate.
Qed.

(** X12: in every state the interface can reach, a raised loading flag has a
    call behind it: the flag is never left up with nothing under way, so the
    spinner always ends when the calls settle. *)
Theorem loading_flag_has_a_call (es : list Event) (sys : System) :
  run es start = Some sys ->
  isLoading (ui sys) = true ->
  inFlight sys <> [].
Proof.
  intros Hrun.
  refine (run_keeps
            (fun x => isLoading (ui x) = true -> inFlight x <> [])
            step_keeps_loading_backed es start sys _ Hrun).
  simpl. discriminate.
Qed.

Lemma loading_flag_has_a_call_witness :
  let es := [ TypePrompt "a red circle"; ClickGenerate ] in
  exists sys,
    run es start = Some sys
    /\ isLoading (ui sys) = true
    /\ inFlight sys <> [].
Proof.
  intros es. eexists. split; [reflexivity |]. split; [reflexivity |].
  apply (loading_flag_has_a_call es _ eq_refl eq_refl).
Defined.

(** X13: from the initial state, along every run in which a file is chosen
    only while nothing is loading, at most one call is under way and the
    loading flag is up exactly while there is one: the two buttons never
    start a second call. *)
Theorem buttons_never_start_a_second_call (es : list Event) (sys : System) :
  uploads_when_idle es start = true ->
  run es start = Some sys ->
  length (inFlight sys) <= 1
  /\ (isLoading (ui sys) = true <-> length (inFlight sys) = 1).
Proof.
  intros Hidle Hrun.
  assert (Hstart : one_at_a_time start) by (right; split; reflexivity).
  destruct (GateFacts.run_one_at_a_time es start sys Hstart Hidle Hrun)
    as [[Hl Hone] | [Hl Hnone]].
  - rewrite Hl, Hone. split; [lia | tauto].
  - rewrite Hl, Hnone. simpl. split; [lia |]. split; discriminate.
Qed.

Lemma buttons_never_start_a_second_call_witness :
  let es := [ TypePrompt "a red circle"; ClickGenerate; TypePrompt "a blue square" ] in
  exists sys,
    run es start = Some sys
    /\ enabled (ui sys) ClickGenerate = false
    /\ length (inFlight sys) <= 1.
Proof.
  intros es. eexists. split; [reflexivity |]. split; [reflexivity |].
  apply (buttons_never_start_a_second_call es _ eq_refl eq_refl).
Defined.

(** *** Image types *)

Lemma Forall_remove_nth {A : Type} (P : A -> Prop) (i : nat) (l : list A) :
  Forall P l -> Forall P (remove_nth i l).
Proof.
  intros H. revert i. induction H as [| x l Hx Hl IH]; intros i.
  - destruct i; constructor.
  - destruct i as [| j]; simpl; [exact Hl | constructor; [exact Hx | apply IH]].
Qed.

Lemma resume_keeps_image (p : Pending) (a : Answer) (s s' : State) :
  call_is_image p -> source_is_image s -> resume p a s = Some s' ->
  source_is_image s'.
Proof.
  unfold source_is_image. intros Hp H.
  destruct p as [pr ratio | pr bytes mime | f], a as [r | r | r]; simpl;
    try discriminate; intros E; injection E as <-.
  - destruct (GeminiService.generateImage _ _ _); simpl; [reflexivity | exact H].
  - destruct (GeminiService.editImage _ _ _ _); simpl; [reflexivity | exact H].
  - destruct (fileToBase64 _ _) as [payload | e] eqn:Hread; simpl; [| exact H].
    rewrite (ServiceEdgeFacts.fileToBase64_settle_mime _ _ _ Hread). exact Hp.
Qed.

Lemma step_keeps_image (e : Event) (sys sys' : System) :
  source_is_image (ui sys) /\ Forall call_is_image (inFlight sys) ->
  step e sys = Some sys' ->
  source_is_image (ui sys') /\ Forall call_is_image (inFlight sys').
Proof.
  intros [Hsrc Hcalls]. unfold step.
  destruct (enabled (ui sys) e); [| discriminate].
  destruct e as [m | | v | v | | [f |] | v | | | i a]; simpl;
    try (intros H; injection H as <-; simpl; split; assumption).
  - intros H. injection H as <-. unfold handleGenerate_begin.
    destruct (truthy (prompt (ui sys))); simpl; split; try assumption.
    + exact I.
    + apply Forall_app. split; [exact Hcalls | repeat constructor].
  - intros H. injection H as <-.
    destruct (startsWith "image/" (type f)) eqn:Htype; simpl;
      split; try assumption.
    apply Forall_app. split; [exact Hcalls |].
    constructor; [exact Htype | constructor].
  - intros H. injection H as <-. unfold handleEdit_begin.
    destruct (truthy (editPrompt (ui sys))); simpl; [| split; assumption].
    unfold source_is_image in *.
    destruct (originalImageForEdit (ui sys)) as [original |] eqn:Himg; simpl;
      rewrite ?Himg; split; try assumption.
    apply Forall_app. split; [exact Hcalls |].
    constructor; [exact Hsrc | constructor].
  - intros H. injection H as <-. simpl. unfold switchToEditMode.
    destruct (truthy_opt (imageSrc (ui sys))); split; assumption.
  - destruct (nth_error (inFlight sys) i) as [p |] eqn:Hp; [| discriminate].
    destruct (resume p a (ui sys)) as [s1 |] eqn:Hres; [| discriminate].
    intros H. injection H as <-. simpl. split.
    + refine (resume_keeps_image p a _ _ _ Hsrc Hres).
      rewrite Forall_forall in Hcalls.
      exact (Hcalls p (nth_error_In _ _ Hp)).
    + exact (Forall_remove_nth _ i _ Hcalls).
Qed.

(** X14: in every state the interface can reach, a call started by Edit
    sends the bytes and the MIME type of the image that is displayed, and
    this type is an image type. *)
Theorem edit_sends_the_displayed_image
    (es : list Event) (sys : System) (p : Pending) :
  run es start = Some sys ->
  snd (handleEdit_begin (ui sys)) = Some p ->
  exists bytes mime,
    p = CallEditImage (editPrompt (ui sys)) bytes mime
    /\ imageSrc (ui sys) = Some ("data:" ++ mime ++ ";base64," ++ template bytes)
    /\ startsWith "image/" mime = true.
Proof.
  intros Hrun Hcall.
  pose proof (run_keeps_sync es start sys eq_refl Hrun) as Hsync.
  pose proof (run_keeps
                (fun x => source_is_image (ui x)
                          /\ Forall call_is_image (inFlight x))
                step_keeps_image es start sys
                (conj I (Forall_nil _)) Hrun) as [Himage _].
  unfold image_in_sync in Hsync. unfold source_is_image in Himage.
  unfold handleEdit_begin in Hcall.
  destruct (truthy (editPrompt (ui sys))); simpl in Hcall; [| discriminate].
  destruct (originalImageForEdit (ui sys)) as [original |]; simpl in Hcall;
    [| discriminate].
  injection Hcall as <-.
  exists (data original), (mimeType original).
  split; [reflexivity |]. split; [exact Hsync | exact Himage].
Qed.

Lemma edit_sends_the_displayed_image_witness :
  let cat := {| name := "cat.gif"; type := "image/gif" |} in
  let es :=
    [ ClickTab edit; ChooseFile (Some cat);
      Settle 0 (ReadAnswer (Loaded "data:image/gif;base64,R0lG"));
      TypeEditPrompt "add a hat" ] in
  exists sys,
    run es start = Some sys
    /\ snd (handleEdit_begin (ui sys))
       = Some (CallEditImage "add a hat" (Some "R0lG") "image/gif")
    /\ imageSrc (ui sys) = Some "data:image/gif;base64,R0lG".
Proof.
  intros cat es. eexists.
  split; [reflexivity |]. split; [reflexivity |].
  destruct (edit_sends_the_displayed_image es _ _ eq_refl eq_refl)
    as (bytes & mime & Hp & Hsrc & _).
  injection Hp as <- <-. exact Hsrc.
Defined.

End ReachableFacts.

(** ** An operation with the interface alive around it *)

Module SpanFacts.

Import FileUtils App Wording.

Lemma resume_answer (w : World) (p : Pending) (s : State) :
  resume p (answer w p) s = Some (settle_in w p s).
Proof. destruct p; reflexivity. Qed.

Lemma begin_clears_error (op : Operation) (s : State) (p : Pending) :
  snd (begin op s) = Some p -> error (fst (begin op s)) = None.
Proof.
  destruct op as [| | f]; simpl.
  - unfold handleGenerate_begin. destruct (truthy (prompt s)); simpl;
      [reflexivity | discriminate].
  - unfold handleEdit_begin. destruct (truthy (editPrompt s)); simpl;
      [| discriminate].
    destruct (originalImageForEdit s); simpl; [reflexivity | discriminate].
  - destruct (startsWith "image/" (type f)); simpl; [reflexivity | discriminate].
Qed.

(** What a settled call leaves depends on the state it meets only through
    the image, the edit source and the error. *)
Lemma settle_in_same_outcome (w : World) (p : Pending) (a b : State) :
  imageSrc a = imageSrc b ->
  originalImageForEdit a = originalImageForEdit b ->
  error a = error b ->
  same_outcome (settle_in w p a) (settle_in w p b).
Proof.
  intros Hsrc Himg Herr. unfold same_outcome.
  destruct p as [pr ratio | pr bytes mime | f]; simpl.
  - destruct (GeminiService.generateImage _ _ _); simpl; auto.
  - destruct (GeminiService.editImage _ _ _ _); simpl; auto.
  - destruct (fileToBase64 _ _); simpl; auto.
Qed.

(** A quiet event leaves the calls under way, the image and the edit source
    alone, and sets no error. *)
Lemma quiet_step (e : Event) (sys sys' : System) :
  quiet e = true ->
  step e sys = Some sys' ->
  inFlight sys' = inFlight sys
  /\ imageSrc (ui sys') = imageSrc (ui sys)
  /\ originalImageForEdit (ui sys') = originalImageForEdit (ui sys)
  /\ (error (ui sys) = None -> error (ui sys') = None).
Proof.
  intros Hquiet. unfold step.
  destruct (enabled (ui sys) e); [| discriminate].
  destruct e as [m | | v | v | | [f |] | v | | | i a]; try discriminate;
    simpl; intros H; injection H as <-; simpl; auto.
  unfold switchToEditMode.
  destruct (truthy_opt (imageSrc (ui sys))); simpl; auto.
Qed.

Lemma quiet_run (es : list Event) (sys sys' : System) :
  forallb quiet es = true ->
  run es sys = Some sys' ->
  inFlight sys' = inFlight sys
  /\ imageSrc (ui sys') = imageSrc (ui sys)
  /\ originalImageForEdit (ui sys') = originalImageForEdit (ui sys)
  /\ (error (ui sys) = None -> error (ui sys') = None).
Proof.
  revert sys. induction es as [| e rest IH]; simpl; intros sys Hquiet Hrun.
  - injection Hrun as <-. auto.
  - apply andb_prop in Hquiet as [He Hrest].
    destruct (step e sys) as [sys1 |] eqn:Hstep; [| discriminate].
    destruct (quiet_step e sys sys1 He Hstep) as (H1 & H2 & H3 & H4).
    destruct (IH sys1 Hrest Hrun) as (K1 & K2 & K3 & K4).
    repeat split; try congruence. auto.
Qed.

(** With nothing else under way, an operation whose call settles after any
    number of quiet events (typing, switching tabs, dismissing the error)
    ends, as to the image, the edit source, the error and the loading flag,
    exactly as the same operation run to its end in one go. *)
Lemma quiet_span_ends_as_one_go
    (w : World) (op : Operation) (sys0 : System) (p : Pending)
    (es : list Event) (sys2 : System) :
  inFlight sys0 = [] ->
  snd (begin op (ui sys0)) = Some p ->
  forallb quiet es = true ->
  run es (issue sys0 (begin op (ui sys0))) = Some sys2 ->
  exists sys3,
    step (Settle 0 (answer w p)) sys2 = Some sys3
    /\ inFlight sys3 = []
    /\ same_outcome (ui sys3) (perform w op (ui sys0)).
Proof.
  intros Hnone Hissued Hquiet Hrun.
  pose proof (begin_clears_error op (ui sys0) p Hissued) as Hclear.
  unfold perform.
  destruct (begin op (ui sys0)) as [s1 o] eqn:Hbegin. simpl in *. subst o.
  destruct (quiet_run es _ sys2 Hquiet Hrun) as (Hfl & Hsrc & Himg & Herr).
  simpl in *. rewrite Hnone in Hfl. simpl in Hfl.
  exists {| ui := settle_in w p (ui sys2); inFlight := [] |}.
  split.
  - unfold step. simpl. rewrite Hfl. simpl. rewrite resume_answer. reflexivity.
  - split; [reflexivity |]. simpl.
    apply settle_in_same_outcome; try assumption.
    rewrite Hclear. exact (Herr Hclear).
Qed.

End SpanFacts.
